(** * GitHub-Lang-Detector: the fetch-and-aggregate pipeline of [fetchData]

    A shallow embedding of [fetchData] (src/App.jsx, and its shorter twin
    that has no profile lookup and no repository statistics) together with
    the properties of its paginator, its error classification, its
    aggregation and the way it writes the component state.

    Conventions of the embedding.
    - A JavaScript string is the list of its UTF-16 code units.
    - The numbers the pipeline handles (counts, star and fork totals, HTTP
      statuses, page numbers) are non-negative integers, modelled by [N].
      [Math.round] of a quotient is the only place where a non-integer
      appears; it is computed on the exact quotient, which is what the
      double-precision code yields as long as the totals stay below 2^52.
    - [null] and [undefined] are both [None]: the code only ever tests
      such values for truthiness.  A [language] is a string or [null].
    - The remote API is a function from requests to responses; within one
      invocation no request is issued twice, so this loses nothing.  Every
      request is answered and every body parses: a rejected [fetch] and a
      malformed body are outside the model.
    - The setters of the component state take effect in the order of the
      calls; the state a call of [fetchData] settles in is the one after
      its last setter. *)

From Stdlib Require Import String Ascii.
From Stdlib Require Import List NArith ZArith Lia Bool.
From Stdlib Require Import Sorting.Sorted Sorting.Permutation.
From Stdlib Require DecimalN.
From Equations Require Import Equations.
Import ListNotations.

Local Open Scope N_scope.

(** ** JavaScript strings and numbers *)

Module Js.

Definition jsstring := list N.

Definition lit (s : string) : jsstring :=
  map N_of_ascii (list_ascii_of_string s).

Definition eqb (a b : jsstring) : bool :=
  if list_eq_dec N.eq_dec a b then true else false.

(** Truthiness of a string: every string but the empty one. *)
Definition truthy (s : jsstring) : bool :=
  match s with [] => false | _ :: _ => true end.

(** Truthiness of a number that is an integer: every one but 0. *)
Definition truthy_num (n : N) : bool := negb (n =? 0).

(** WhiteSpace and LineTerminator code points of ECMAScript, the ones
    [String.prototype.trim] strips. *)
Definition is_whitespace (c : N) : bool :=
  (c =? 9) || (c =? 10) || (c =? 11) || (c =? 12) || (c =? 13) ||
  (c =? 32) || (c =? 160) || (c =? 5760) ||
  ((8192 <=? c) && (c <=? 8202)) ||
  (c =? 8232) || (c =? 8233) || (c =? 8239) || (c =? 8287) ||
  (c =? 12288) || (c =? 65279).

Fixpoint trimStart (s : jsstring) : jsstring :=
  match s with
  | c :: s' => if is_whitespace c then trimStart s' else s
  | [] => []
  end.

Definition trimEnd (s : jsstring) : jsstring := rev (trimStart (rev s)).

Definition trim (s : jsstring) : jsstring := trimEnd (trimStart s).

(** [Number.prototype.toString] on a non-negative integer: its decimal
    digits, most significant first, no leading zero. *)
Fixpoint digits (d : Decimal.uint) : jsstring :=
  match d with
  | Decimal.Nil => []
  | Decimal.D0 d => 48 :: digits d
  | Decimal.D1 d => 49 :: digits d
  | Decimal.D2 d => 50 :: digits d
  | Decimal.D3 d => 51 :: digits d
  | Decimal.D4 d => 52 :: digits d
  | Decimal.D5 d => 53 :: digits d
  | Decimal.D6 d => 54 :: digits d
  | Decimal.D7 d => 55 :: digits d
  | Decimal.D8 d => 56 :: digits d
  | Decimal.D9 d => 57 :: digits d
  end.

Definition toString (n : N) : jsstring := digits (N.to_uint n).

(** Reading a string of decimal digits; [None] when some code unit is not
    a digit. *)
Fixpoint parseDigits (acc : N) (s : jsstring) : option N :=
  match s with
  | [] => Some acc
  | c :: s' =>
      if (48 <=? c) && (c <=? 57) then parseDigits (10 * acc + (c - 48)) s'
      else None
  end.

(** An array index is a property key that is the canonical decimal
    spelling of an integer between 0 and 2^32 - 2. *)
Definition isArrayIndex (s : jsstring) : bool :=
  match s with
  | [] => false
  | _ :: _ =>
      match parseDigits 0 s with
      | Some n => (n <=? 4294967294) && eqb (toString n) s
      | None => false
      end
  end.

Definition arrayIndex (s : jsstring) : N :=
  match parseDigits 0 s with Some n => n | None => 0 end.

(** The property names every ordinary object inherits from
    [Object.prototype]. *)
Definition objectPrototypeKeys : list jsstring :=
  map lit [ "constructor"; "hasOwnProperty"; "isPrototypeOf";
            "propertyIsEnumerable"; "toLocaleString"; "toString"; "valueOf";
            "__defineGetter__"; "__defineSetter__"; "__lookupGetter__";
            "__lookupSetter__"; "__proto__" ]%string.

Definition inherited (k : jsstring) : bool := existsb (eqb k) objectPrototypeKeys.

Definition proto : jsstring := lit "__proto__".

End Js.

Import Js.

(** ** Data model *)

(** A repository object as the API returns it; only the fields the pipeline
    reads.  An absent and a [null] field are both [None]. *)
Record RepositoryRecord := mkRepo {
  name : jsstring;
  language : option jsstring;
  stargazers_count : option N;
  forks_count : option N;
  description : option jsstring;
  html_url : jsstring
}.

(** The profile object; it is stored as received and never inspected. *)
Record UserProfile := mkProfile {
  login : jsstring;
  followers : N;
  following : N;
  public_repos : N;
  public_gists : N
}.

(** The value of a property of [langMap].  Besides counts, the expression
    [(langMap[k] || 0) + 1] can produce text (when [langMap[k]] is a
    function or an object inherited from [Object.prototype], [+] is string
    concatenation); [VOther] stands for any such value: it is truthy and it
    converts to [NaN] under subtraction. *)
Inductive jsval := VNum (n : N) | VOther.

Record LanguageCount := mkLanguageCount { lc_name : jsstring; value : jsval }.

Record RepoStats := mkRepoStats {
  totalStars : N;
  totalForks : N;
  avgStars : option N     (* [None] is [NaN] *)
}.

Record TopRepoEntry := mkTop {
  top_name : jsstring;
  stars : option N;
  forks : option N;
  top_description : option jsstring;
  url : jsstring;
  top_language : option jsstring
}.

(** ** The remote API *)

Record Headers := mkHeaders { Accept : jsstring; Authorization : option jsstring }.

Inductive Request :=
| GetUser (user : jsstring) (headers : Headers)
| GetRepos (user : jsstring) (per_page page : N) (headers : Headers).

Record Response (A : Type) := mkResponse {
  status : N;
  statusText : jsstring;
  json : A
}.
Arguments mkResponse {A}.
Arguments status {A}.
Arguments statusText {A}.
Arguments json {A}.

(** [Response.ok]: the status is in the range 200-299. *)
Definition ok {A} (r : Response A) : bool := (200 <=? status r) && (status r <=? 299).

Record Api := mkApi {
  users : jsstring -> Headers -> Response UserProfile;
  repos : jsstring -> N -> N -> Headers -> Response (list RepositoryRecord)
}.

(** ** Error classification *)

(** The failures [fetchData] raises.  The code knows them only by their
    messages; [message] gives the text of each [new Error(...)]. *)
Inductive ErrorKind :=
| ValidationError
| NotFound
| RateLimited
| Unauthorized
| Unclassified (code : N) (text : jsstring)
| EmptyResult
| NoLanguageData.

Definition message (e : ErrorKind) : jsstring :=
  match e with
  | ValidationError => lit "Please enter a GitHub username first."
  | NotFound => lit "User not found. Check the username."
  | RateLimited => lit "API Rate limit exceeded. Wait a while or add a GitHub Token below."
  | Unauthorized => lit "Invalid GitHub Token."
  | Unclassified code text => lit "GitHub API Error: " ++ toString code ++ lit " " ++ text
  | EmptyResult => lit "No public repositories found for this user."
  | NoLanguageData => lit "Repositories found, but no language data detected."
  end.

(** The chain of tests on [response.status] inside [if (!response.ok)]. *)
Definition classify (statusCode : N) (text : jsstring) : ErrorKind :=
  if statusCode =? 404 then NotFound
  else if statusCode =? 403 then RateLimited
  else if statusCode =? 401 then Unauthorized
  else Unclassified statusCode text.

(** ** Array.prototype.sort *)

(** [sort] is stable, and a comparator result of [NaN] counts as 0.  For a
    comparator that orders the elements consistently the result of a stable
    sort is unique (see [stable_sort_unique] below), so it is computed here
    by insertion.  A comparator yields [None] for [NaN]. *)
Section ArraySort.
Context {A : Type} (comparefn : A -> A -> option Z).

Definition goesAfter (x y : A) : bool :=
  match comparefn x y with
  | Some v => (0 <? v)%Z
  | None => false
  end.

Fixpoint insertSorted (x : A) (l : list A) : list A :=
  match l with
  | [] => [x]
  | y :: l' => if goesAfter x y then y :: insertSorted x l' else x :: l
  end.

Definition Array_sort (l : list A) : list A := fold_right insertSorted [] l.
End ArraySort.

(** ** The language histogram *)

(** [langMap]: the own properties of the object, in creation order. *)
Definition LangMap := list (jsstring * jsval).

Fixpoint own (m : LangMap) (k : jsstring) : option jsval :=
  match m with
  | [] => None
  | (k', v) :: m' => if eqb k k' then Some v else own m' k
  end.

(** [langMap[k]]: the own property, else what [Object.prototype] holds
    under that name (a function, or the prototype object itself), else
    [undefined]. *)
Definition get (m : LangMap) (k : jsstring) : option jsval :=
  match own m k with
  | Some v => Some v
  | None => if inherited k then Some VOther else None
  end.

(** [(x || 0) + 1]. *)
Definition orZeroPlusOne (x : option jsval) : jsval :=
  match x with
  | Some (VNum n) => if truthy_num n then VNum (n + 1) else VNum 1
  | Some VOther => VOther
  | None => VNum 1
  end.

Fixpoint assign (m : LangMap) (k : jsstring) (v : jsval) : LangMap :=
  match m with
  | [] => [(k, v)]
  | (k', v') :: m' => if eqb k k' then (k', v) :: m' else (k', v') :: assign m' k v
  end.

(** [langMap[k] = v].  The inherited setter for [__proto__] drops a value
    that is neither an object nor [null], and creates no property. *)
Definition set (m : LangMap) (k : jsstring) (v : jsval) : LangMap :=
  if eqb k proto then m else assign m k v.

(** The body of [allRepos.forEach], on the pair [(langMap, hasLang)]. *)
Definition tallyRepo (acc : LangMap * bool) (repo : RepositoryRecord) : LangMap * bool :=
  match language repo with
  | Some l =>
      if truthy l
      then (set (fst acc) l (orZeroPlusOne (get (fst acc) l)), true)
      else acc
  | None => acc
  end.

Definition tally (allRepos : list RepositoryRecord) : LangMap * bool :=
  fold_left tallyRepo allRepos ([], false).

Definition compareIndex (a b : jsstring) : option Z :=
  Some (Z.of_N (arrayIndex a) - Z.of_N (arrayIndex b))%Z.

(** The order in which the own property names [ks], given in creation
    order, are enumerated: array indices in ascending numeric order, then
    the other names in creation order. *)
Definition propertyOrder (ks : list jsstring) : list jsstring :=
  Array_sort compareIndex (filter isArrayIndex ks)
  ++ filter (fun k => negb (isArrayIndex k)) ks.

(** [Object.keys(langMap)] *)
Definition Object_keys (m : LangMap) : list jsstring := propertyOrder (map fst m).

Definition toNumber (v : jsval) : option Z :=
  match v with VNum n => Some (Z.of_N n) | VOther => None end.

(** [b.value - a.value]. *)
Definition byValueDesc (a b : LanguageCount) : option Z :=
  match toNumber (value b), toNumber (value a) with
  | Some vb, Some va => Some (vb - va)%Z
  | _, _ => None
  end.

Definition entryOf (m : LangMap) (lang : jsstring) : LanguageCount :=
  {| lc_name := lang;
     value := match get m lang with Some v => v | None => VOther end |}.

Definition processedData (langMap : LangMap) : list LanguageCount :=
  Array_sort byValueDesc (map (entryOf langMap) (Object_keys langMap)).

(** ** Repository statistics and ranking *)

Definition orZero (x : option N) : N :=
  match x with Some n => if truthy_num n then n else 0 | None => 0 end.

Definition sumStars (allRepos : list RepositoryRecord) : N :=
  fold_left (fun sum repo => sum + orZero (stargazers_count repo)) allRepos 0.

Definition sumForks (allRepos : list RepositoryRecord) : N :=
  fold_left (fun sum repo => sum + orZero (forks_count repo)) allRepos 0.

(** [Math.round(a / n)]: the nearest integer, halves rounded up; [NaN]
    for 0/0. *)
Definition Math_round_div (a n : N) : option N :=
  if n =? 0 then None else Some ((2 * a + n) / (2 * n)).

Definition byStarsDesc (a b : RepositoryRecord) : option Z :=
  Some (Z.of_N (orZero (stargazers_count b)) - Z.of_N (orZero (stargazers_count a)))%Z.

Definition toTopEntry (repo : RepositoryRecord) : TopRepoEntry :=
  {| top_name := name repo;
     stars := stargazers_count repo;
     forks := forks_count repo;
     top_description := description repo;
     url := html_url repo;
     top_language := language repo |}.

Definition top5Repos (allRepos : list RepositoryRecord) : list TopRepoEntry :=
  map toTopEntry (firstn 5 (Array_sort byStarsDesc allRepos)).

(** ** Component state and the effects of [fetchData] *)

(** The [useState] cells [fetchData] reads or writes. *)
Record AppState := mkState {
  username : jsstring;
  token : jsstring;
  loading : bool;
  error : option jsstring;
  data : option (list LanguageCount);
  userProfile : option UserProfile;
  topRepos : list TopRepoEntry;
  repoStats : RepoStats;
  repoCount : N
}.

Definition initialState : AppState :=
  {| username := []; token := []; loading := false; error := None;
     data := None; userProfile := None; topRepos := [];
     repoStats := {| totalStars := 0; totalForks := 0; avgStars := Some 0 |};
     repoCount := 0 |}.

Definition setLoading (b : bool) (s : AppState) : AppState :=
  mkState (username s) (token s) b (error s) (data s) (userProfile s)
          (topRepos s) (repoStats s) (repoCount s).
Definition setError (e : option jsstring) (s : AppState) : AppState :=
  mkState (username s) (token s) (loading s) e (data s) (userProfile s)
          (topRepos s) (repoStats s) (repoCount s).
Definition setData (d : option (list LanguageCount)) (s : AppState) : AppState :=
  mkState (username s) (token s) (loading s) (error s) d (userProfile s)
          (topRepos s) (repoStats s) (repoCount s).
Definition setUserProfile (p : option UserProfile) (s : AppState) : AppState :=
  mkState (username s) (token s) (loading s) (error s) (data s) p
          (topRepos s) (repoStats s) (repoCount s).
Definition setTopRepos (t : list TopRepoEntry) (s : AppState) : AppState :=
  mkState (username s) (token s) (loading s) (error s) (data s) (userProfile s)
          t (repoStats s) (repoCount s).
Definition setRepoStats (r : RepoStats) (s : AppState) : AppState :=
  mkState (username s) (token s) (loading s) (error s) (data s) (userProfile s)
          (topRepos s) r (repoCount s).
Definition setRepoCount (n : N) (s : AppState) : AppState :=
  mkState (username s) (token s) (loading s) (error s) (data s) (userProfile s)
          (topRepos s) (repoStats s) n.

(** The outcome of a block that may [throw]: a value, or the message of
    the [Error] thrown. *)
Inductive Outcome (A : Type) := Returned (a : A) | Thrown (msg : jsstring).
Arguments Returned {A}.
Arguments Thrown {A}.

(** What a run has done so far: the component state as written by the
    setters, and the requests issued, oldest first. *)
Record World := mkWorld { ui : AppState; issued : list Request }.

(** Computations of the [try] block: they read and write the world and
    may throw. *)
Definition Eff (A : Type) : Type := World -> Outcome A * World.

Definition ret {A} (a : A) : Eff A := fun w => (Returned a, w).

Definition throw {A} (e : ErrorKind) : Eff A := fun w => (Thrown (message e), w).

Definition bind {A B} (m : Eff A) (k : A -> Eff B) : Eff B :=
  fun w =>
    match m w with
    | (Returned a, w') => k a w'
    | (Thrown msg, w') => (Thrown msg, w')
    end.

Notation "x <- m ;; k" := (bind m (fun x => k))
  (at level 61, m at next level, right associativity).
Notation "m ;;; k" := (bind m (fun _ => k))
  (at level 61, right associativity).

Definition write (f : AppState -> AppState) : Eff unit :=
  fun w => (Returned tt, mkWorld (f (ui w)) (issued w)).

Definition record (rq : Request) : Eff unit :=
  fun w => (Returned tt, mkWorld (ui w) (issued w ++ [rq])).

(** [await fetch(`https://api.github.com/users/${user}`, { headers })] *)
Definition fetchUser (api : Api) (user : jsstring) (headers : Headers)
  : Eff (Response UserProfile) :=
  record (GetUser user headers) ;;; ret (users api user headers).

(** [await fetch(`.../users/${user}/repos?per_page=${perPage}&sort=updated&page=${page}`, { headers })] *)
Definition fetchRepos (api : Api) (user : jsstring) (per_page page : N)
  (headers : Headers) : Eff (Response (list RepositoryRecord)) :=
  record (GetRepos user per_page page headers) ;;; ret (repos api user per_page page headers).

(** The block under [if (!response.ok)]. *)
Definition rejectFailure {A} (response : Response A) : Eff unit :=
  if negb (ok response)
  then throw (classify (status response) (statusText response))
  else ret tt.

(** ** The paginator *)

Definition perPage : N := 100.
Definition maxPages : N := 10.

Definition len {A} (l : list A) : N := N.of_nat (length l).

(** The [while (true)] loop, from the state [(page, allRepos)].  It stops
    by [break] or by [throw]; the distance of [page] to [maxPages]
    decreases at each turn. *)
Equations? fetchPagesFrom (api : Api) (user : jsstring) (headers : Headers)
  (page : N) (allRepos : list RepositoryRecord)
  : Eff (list RepositoryRecord) by wf (N.to_nat (maxPages - page)) lt :=
fetchPagesFrom api user headers page allRepos :=
  response <- fetchRepos api user perPage page headers ;;
  rejectFailure response ;;;
  let repos := json response in
  let allRepos := allRepos ++ repos in
  match ((len repos <? perPage) || (maxPages <=? page)) as stop
        return ((len repos <? perPage) || (maxPages <=? page) = stop -> _) with
  | true => fun _ => ret allRepos
  | false => fun continue => fetchPagesFrom api user headers (page + 1) allRepos
  end eq_refl.
Proof.
  apply orb_false_elim in continue. destruct continue as [_ H].
  apply N.leb_gt in H.
  change (N.to_nat (maxPages - (page + 1)) < N.to_nat (maxPages - page))%nat.
  unfold maxPages in *. lia.
Qed.

(** [let page = 1; let allRepos = []; while (true) ...] *)
Definition fetchAllPages (api : Api) (user : jsstring) (headers : Headers)
  : Eff (list RepositoryRecord) :=
  fetchPagesFrom api user headers 1 [].

(** ** [fetchData] *)

Definition requestHeaders (token : jsstring) : Headers :=
  {| Accept := lit "application/vnd.github+json";
     Authorization := if truthy token then Some (lit "Bearer " ++ token) else None |}.

(** The aggregation at the end of the [try] block, from [langMap] on. *)
Definition aggregate (allRepos : list RepositoryRecord) : Eff unit :=
  let '(langMap, hasLang) := tally allRepos in
  (if negb hasLang then throw NoLanguageData else ret tt) ;;;
  let processedData := processedData langMap in
  let totalStars := sumStars allRepos in
  let totalForks := sumForks allRepos in
  let avgStars := Math_round_div totalStars (len allRepos) in
  let top5Repos := top5Repos allRepos in
  write (setRepoStats {| totalStars := totalStars; totalForks := totalForks;
                         avgStars := avgStars |}) ;;;
  write (setTopRepos top5Repos) ;;;
  write (setData (Some processedData)).

(** The [try] block of src/App.jsx. *)
Definition tryBlock (api : Api) (token userToFetch : jsstring) : Eff unit :=
  let headers := requestHeaders token in
  userResponse <- fetchUser api userToFetch headers ;;
  rejectFailure userResponse ;;;
  let profile := json userResponse in
  write (setUserProfile (Some profile)) ;;;
  allRepos <- fetchAllPages api userToFetch headers ;;
  write (setRepoCount (len allRepos)) ;;;
  (if len allRepos =? 0 then throw EmptyResult else ret tt) ;;;
  aggregate allRepos.

(** [catch (err) { setError(err.message) } finally { setLoading(false) }] *)
Definition catchFinally (r : Outcome unit * World) : World :=
  let w := match fst r with
           | Thrown msg => mkWorld (setError (Some msg) (ui (snd r))) (issued (snd r))
           | Returned _ => snd r
           end in
  mkWorld (setLoading false (ui w)) (issued w).

(** [setLoading(true); setError(null); setData(null); setUserProfile(null)],
    the setters that open an attempt. *)
Definition opened (st : AppState) : AppState :=
  setUserProfile None (setData None (setError None (setLoading true st))).

(** [fetchData(userToFetch = username)], run from the state [st] against
    [api]; [arg] is [None] when the argument is left out, and [token] is
    the one of the state the call starts from.  The result is the state
    after the call settles and the requests it issued. *)
Definition fetchData (api : Api) (arg : option jsstring) (st : AppState) : World :=
  let userToFetch := match arg with Some u => u | None => username st end in
  if negb (truthy (trim userToFetch))
  then mkWorld (setError (Some (message ValidationError)) st) []
  else catchFinally (tryBlock api (token st) userToFetch (mkWorld (opened st) [])).

(** The shorter variant of the component: no profile request, no
    statistics, no ranking. *)
Module Basic.

Definition tryBlock (api : Api) (token userToFetch : jsstring) : Eff unit :=
  let headers := requestHeaders token in
  allRepos <- fetchAllPages api userToFetch headers ;;
  write (setRepoCount (len allRepos)) ;;;
  (if len allRepos =? 0 then throw EmptyResult else ret tt) ;;;
  let '(langMap, hasLang) := tally allRepos in
  (if negb hasLang then throw NoLanguageData else ret tt) ;;;
  write (setData (Some (processedData langMap))).

(** [setLoading(true); setError(null); setData(null)] *)
Definition opened (st : AppState) : AppState :=
  setData None (setError None (setLoading true st)).

Definition fetchData (api : Api) (arg : option jsstring) (st : AppState) : World :=
  let userToFetch := match arg with Some u => u | None => username st end in
  if negb (truthy (trim userToFetch))
  then mkWorld (setError (Some (message ValidationError)) st) []
  else catchFinally (tryBlock api (token st) userToFetch (mkWorld (opened st) [])).

End Basic.

(** ** What the component renders from the state *)

(** The error banner is rendered under [error]: a message that is not the
    empty string. *)
Definition errorShown (st : AppState) : bool :=
  match error st with Some e => truthy e | None => false end.

(** The results section is rendered under [data && userProfile]; an array
    is truthy even when empty. *)
Definition resultsShown (st : AppState) : bool :=
  match data st, userProfile st with
  | Some _, Some _ => true
  | _, _ => false
  end.

(** The card "Top Language": [data[0]?.name || 'N/A']. *)
Definition topLanguageCard (data : list LanguageCount) : jsstring :=
  match data with
  | e :: _ => if truthy (lc_name e) then lc_name e else lit "N/A"
  | [] => lit "N/A"
  end.

(** The card "Diversity Score": [data.length]. *)
Definition diversityScore (data : list LanguageCount) : N := len data.

Definition COLORS : list jsstring :=
  map lit [ "#3B82F6"; "#10B981"; "#F59E0B"; "#EF4444";
            "#8B5CF6"; "#EC4899"; "#14B8A6"; "#F97316" ]%string.

(** The fill of the chart cell of the entry at [index]:
    [COLORS[index % COLORS.length]], [None] for [undefined]. *)
Definition cellFill (index : N) : option jsstring :=
  nth_error COLORS (N.to_nat (index mod len COLORS)).

(** ** The share snippets *)

(** [window.location], as far as the snippets read it. *)
Record Location := mkLocation { hostname : jsstring; href : jsstring }.

Fixpoint startsWith (s prefix : jsstring) : bool :=
  match prefix, s with
  | [], _ => true
  | p :: prefix', c :: s' => (c =? p) && startsWith s' prefix'
  | _ :: _, [] => false
  end.

(** [s.includes(sub)] *)
Fixpoint includes (s sub : jsstring) : bool :=
  startsWith s sub ||
  match s with
  | [] => false
  | _ :: s' => includes s' sub
  end.

(** [s.split(sep)[0]] for a separator of one code unit: the part of [s]
    before the first [sep], all of [s] when there is none. *)
Fixpoint splitHead (sep : N) (s : jsstring) : jsstring :=
  match s with
  | [] => []
  | c :: s' => if c =? sep then [] else c :: splitHead sep s'
  end.

Definition questionMark : N := 63.
Definition doubleQuote : jsstring := [34].
Definition lineFeed : jsstring := [10].

Definition noQuestionMark (s : jsstring) : bool :=
  forallb (fun c => negb (c =? questionMark)) s.

(** U+1F4CA, as its two UTF-16 code units. *)
Definition barChartEmoji : jsstring := [55357; 56522].

(** The link both snippets point to: the current page without its query
    on a deployed site, the public site when on localhost or in a sandbox
    (the [throw] inside the [try] lands in the [catch]). *)
Definition appUrl (location : Location) (username : jsstring) : jsstring :=
  if negb (eqb (hostname location) (lit "localhost"))
     && negb (includes (hostname location) (lit "sandbox"))
  then splitHead questionMark (href location) ++ lit "?user=" ++ username
  else lit "https://gunjan-ghangare.github.io/GitHub-Lang-Detector/?user=" ++ username.

Definition generateMarkdown (location : Location) (username : jsstring) : jsstring :=
  lit "[![My Top Languages](https://img.shields.io/badge/View%20My-Top%20Languages-blue?style=for-the-badge&logo=github)]("
  ++ appUrl location username ++ lit ")".

Definition generateHTMLEmbed (location : Location) (username : jsstring) : jsstring :=
  lit "<a href=" ++ doubleQuote ++ appUrl location username ++ doubleQuote
  ++ lit " target=" ++ doubleQuote ++ lit "_blank" ++ doubleQuote
  ++ lit " rel=" ++ doubleQuote ++ lit "noopener noreferrer" ++ doubleQuote ++ lit ">"
  ++ lineFeed
  ++ lit "  <img alt=" ++ doubleQuote ++ lit "GitLang Detector - " ++ username
  ++ lit "'s Top Languages" ++ doubleQuote
  ++ lit " src=" ++ doubleQuote ++ lit "https://img.shields.io/badge/" ++ barChartEmoji
  ++ lit "_View-My_Top_Languages-3b82f6?style=for-the-badge&logo=github&logoColor=white"
  ++ doubleQuote ++ lit " />" ++ lineFeed
  ++ lit "</a>".

(** * Notions used to state the properties *)

(** ** Orders and ranks *)

Section Ranks.

Context {A : Type} (comparefn : A -> A -> option Z) (rank : A -> Z).

(** [comparefn] orders the elements of [l] by ascending [rank]. *)
Definition ordersBy (l : list A) : Prop :=
  forall a b, In a l -> In b l -> goesAfter comparefn a b = (rank b <? rank a)%Z.

Definition rankLe (a b : A) : Prop := (rank a <= rank b)%Z.

Definition hasRank (k : Z) (a : A) : bool := (rank a =? k)%Z.

End Ranks.

(** ** Pages and what the loop does with them *)

(** The [n] page numbers from [first] on. *)
Definition pagesFrom (first : N) (n : nat) : list N :=
  map (fun i => first + N.of_nat i) (seq 0 n).

Section Pages.

Variables (api : Api) (user : jsstring) (headers : Headers).

Definition pageRequest (page : N) : Request := GetRepos user perPage page headers.

Definition pageResponse (page : N) : Response (list RepositoryRecord) :=
  repos api user perPage page headers.

Definition pageItems (page : N) : list RepositoryRecord := json (pageResponse page).

(** The outcome of a loop that has asked for [page], ..., [page + k]
    and ends on the answer to the last of them. *)
Definition endsOn (page : N) (k : nat) (allRepos : list RepositoryRecord)
  (out : Outcome (list RepositoryRecord)) : Prop :=
  let last := pageResponse (page + N.of_nat k) in
  (ok last = false /\
   out = Thrown (message (classify (status last) (statusText last))))
  \/
  (ok last = true /\
   (len (json last) < perPage \/ maxPages <= page + N.of_nat k) /\
   out = Returned (allRepos ++ concat (map pageItems (pagesFrom page (S k))))).

(** A page that lets the loop go on: a success with at least [perPage]
    items. *)
Definition fullPage (p : N) : Prop :=
  ok (pageResponse p) = true /\ perPage <= len (pageItems p).

(** What the loop does from [page] on: it asks for [page], [page + 1],
    ..., [page + k] in this order, the first [k] of them answered with a
    full page, and it ends on the answer to the last one.  It touches
    nothing of the component state. *)
Definition loopRuns (page : N) (allRepos : list RepositoryRecord)
  (k : nat) (out : Outcome (list RepositoryRecord)) : Prop :=
  N.of_nat k <= maxPages - page /\
  (forall w, fetchPagesFrom api user headers page allRepos w =
             (out, mkWorld (ui w) (issued w ++ map pageRequest (pagesFrom page (S k))))) /\
  (forall p, In p (pagesFrom page k) -> fullPage p) /\
  endsOn page k allRepos out.

(** The outcome of the paginator and the requests it issues. *)
Definition paginate : Outcome (list RepositoryRecord) * list Request :=
  let r := fetchAllPages api user headers (mkWorld initialState []) in
  (fst r, issued (snd r)).

End Pages.

(** ** States a run settles in *)

Definition userOf (arg : option jsstring) (st : AppState) : jsstring :=
  match arg with Some u => u | None => username st end.

(** The state a failing attempt settles in. *)
Definition failed (e : jsstring) (st : AppState) : AppState :=
  setLoading false (setError (Some e) st).

Definition statsOf (allRepos : list RepositoryRecord) : RepoStats :=
  {| totalStars := sumStars allRepos;
     totalForks := sumForks allRepos;
     avgStars := Math_round_div (sumStars allRepos) (len allRepos) |}.

(** The state a successful attempt settles in. *)
Definition succeeded (allRepos : list RepositoryRecord) (st : AppState) : AppState :=
  setLoading false
    (setData (Some (processedData (fst (tally allRepos))))
       (setTopRepos (top5Repos allRepos)
          (setRepoStats (statsOf allRepos) st))).

(** ** Stars, totals and rounding *)

Definition starsOf (repo : RepositoryRecord) : N := orZero (stargazers_count repo).


Definition entryStars (e : TopRepoEntry) : N := orZero (stars e).

Definition moreStars (a b : RepositoryRecord) : Prop := starsOf b <= starsOf a.

Definition moreStarsEntry (a b : TopRepoEntry) : Prop := entryStars b <= entryStars a.

Definition withStars (k : N) (repo : RepositoryRecord) : bool := starsOf repo =? k.

Definition entryWithStars (k : N) (e : TopRepoEntry) : bool := entryStars e =? k.

Definition starRank (repo : RepositoryRecord) : Z := (- Z.of_N (starsOf repo))%Z.

Definition total (l : list N) : N := fold_right N.add 0 l.


(** ** Responses *)

Definition contains (s sub : jsstring) : Prop :=
  exists before after, s = before ++ sub ++ after.

Definition responseOk (api : Api) (rq : Request) : bool :=
  match rq with
  | GetUser u h => ok (users api u h)
  | GetRepos u n p h => ok (repos api u n p h)
  end.

Definition responseStatus (api : Api) (rq : Request) : N :=
  match rq with
  | GetUser u h => status (users api u h)
  | GetRepos u n p h => status (repos api u n p h)
  end.

Definition responseText (api : Api) (rq : Request) : jsstring :=
  match rq with
  | GetUser u h => statusText (users api u h)
  | GetRepos u n p h => statusText (repos api u n p h)
  end.

(** ** Languages and counts *)

(** A record counts for the histogram when its [language] is truthy: a
    string that is not empty. *)
Definition speaks (repo : RepositoryRecord) : bool :=
  match language repo with Some l => truthy l | None => false end.

(** The languages that count, one per language-bearing record, in record
    order. *)
Definition languagesOf (rs : list RepositoryRecord) : list jsstring :=
  flat_map (fun r => match language r with
                     | Some l => if truthy l then [l] else []
                     | None => []
                     end) rs.

(** The number of records whose [language] is the string [l]. *)
Definition recordsWith (l : jsstring) (rs : list RepositoryRecord) : N :=
  len (filter (fun r => match language r with
                        | Some l' => eqb l' l
                        | None => false
                        end) rs).

Definition countOf (l : jsstring) (ls : list jsstring) : N := len (filter (eqb l) ls).

(** Discovery order: every name once, at the place of its first
    occurrence. *)
Definition firstSeen (ls : list jsstring) : list jsstring :=
  fold_left (fun seen l => if existsb (eqb l) seen then seen else seen ++ [l]) ls [].

(** The number a histogram entry shows. *)
Definition numeric (v : jsval) : N := match v with VNum n => n | VOther => 0 end.

Definition shown (e : LanguageCount) : N := numeric (value e).

(** The tally as a function of the names alone. *)
Definition tallyName (acc : LangMap * bool) (l : jsstring) : LangMap * bool :=
  (set (fst acc) l (orZeroPlusOne (get (fst acc) l)), true).

Definition entryFor (ls : list jsstring) (l : jsstring) : LanguageCount :=
  {| lc_name := l; value := VNum (countOf l ls) |}.

Definition valueRank (e : LanguageCount) : Z := (- Z.of_N (shown e))%Z.

Definition withCount (k : N) (e : LanguageCount) : bool := shown e =? k.

Definition fewerShown (a b : LanguageCount) : Prop := shown b <= shown a.

(** ** The claims that fail, in the words of the specification *)

Definition nonNull (repo : RepositoryRecord) : bool :=
  match language repo with Some _ => true | None => false end.

Definition nonNullLanguages (rs : list RepositoryRecord) : list jsstring :=
  flat_map (fun r => match language r with Some l => [l] | None => [] end) rs.

(** The histogram as the specification words it: one entry per distinct
    non-null language, valued by the number of records with that language,
    the values adding up to the number of records with a non-null language,
    in descending order of value, ties in discovery order. *)
Definition histogramAsStated (rs : list RepositoryRecord) (h : list LanguageCount) : Prop :=
  NoDup (map lc_name h) /\
  (forall l, In l (map lc_name h) <-> In l (nonNullLanguages rs)) /\
  (forall e, In e h -> value e = VNum (recordsWith (lc_name e) rs)) /\
  total (map shown h) = len (filter nonNull rs) /\
  StronglySorted fewerShown h /\
  (forall k, map lc_name (filter (withCount k) h) =
             filter (fun l => recordsWith l rs =? k) (firstSeen (nonNullLanguages rs))).


(** ** Sample sources and records *)

Definition sampleProfile : UserProfile :=
  {| login := lit "octocat"; followers := 3; following := 1;
     public_repos := 4; public_gists := 0 |}.

Definition sampleUser : jsstring := lit "octocat".

Definition sampleHeaders : Headers := requestHeaders [].

Definition answered {A} (body : A) : Response A :=
  {| status := 200; statusText := lit "OK"; json := body |}.

Definition refused {A} (code : N) (text : string) (body : A) : Response A :=
  {| status := code; statusText := lit text; json := body |}.

Definition sampleRepo (title : string) (lang : option string) (stargazers : option N)
  : RepositoryRecord :=
  {| name := lit title; language := option_map lit lang;
     stargazers_count := stargazers; forks_count := None;
     description := None; html_url := lit "https://github.com/octocat/" ++ lit title |}.

(** The records of the end-to-end example. *)
Definition sampleRecords : list RepositoryRecord :=
  [ sampleRepo "a" (Some "Go") (Some 10); sampleRepo "b" (Some "Go") (Some 5);
    sampleRepo "c" None (Some 1); sampleRepo "d" (Some "Rust") (Some 20) ]%string.

(** Two languages seen once each, the second one named by an array index. *)
Definition sampleIndexNamed : list RepositoryRecord :=
  [ sampleRepo "a" (Some "Zig") None; sampleRepo "b" (Some "7") None ]%string.

(** A language given as the empty string. *)
Definition sampleBlankLanguage : list RepositoryRecord :=
  [ sampleRepo "a" (Some "Go") None; sampleRepo "b" (Some EmptyString) None ]%string.

(** A language named like a member of [Object.prototype]. *)
Definition sampleInheritedName : list RepositoryRecord :=
  [ sampleRepo "a" (Some "constructor") None ]%string.

Definition sampleSilent : list RepositoryRecord :=
  [ sampleRepo "a" None (Some 2); sampleRepo "b" (Some EmptyString) None ]%string.

Definition onePage (records : list RepositoryRecord) : Api :=
  {| users := fun _ _ => answered sampleProfile;
     repos := fun _ _ page _ => answered (if page =? 1 then records else []) |}.

Definition pagesOf (size : N -> nat) : Api :=
  {| users := fun _ _ => answered sampleProfile;
     repos := fun _ _ page _ => answered (repeat (sampleRepo "r" None None) (size page)) |}.

(** Pages 1 to 3 full, page 4 one short. *)
Definition sampleFourPages : Api := pagesOf (fun page => if page <=? 3 then 100%nat else 99%nat).

Definition sampleAlwaysFull : Api := pagesOf (fun _ => 100%nat).

(** A source that ignores [per_page] and sends 101 items a page. *)
Definition sampleOversized : Api := pagesOf (fun _ => 101%nat).

(** A full first page, then 403 on page 2. *)
Definition sampleRateLimited : Api :=
  {| users := fun _ _ => answered sampleProfile;
     repos := fun _ _ page _ =>
       if page =? 1 then answered (repeat (sampleRepo "r" (Some "Go"%string) (Some 1)) 100)
       else refused 403 "Forbidden" [] |}.


Definition sampleBroken : Api :=
  {| users := fun _ _ => refused 500 "Internal Server Error" sampleProfile;
     repos := fun _ _ _ _ => answered [] |}.


(** The state after a successful run on the end-to-end example. *)
Definition sampleShown : AppState :=
  ui (fetchData (onePage sampleRecords) (Some sampleUser) initialState).

(** The [p]-th run of [perPage] items of a list: what a source that pages
    the list sends as page [p]. *)
Definition slice (all : list RepositoryRecord) (p : N) : list RepositoryRecord :=
  firstn (N.to_nat perPage) (skipn (N.to_nat (perPage * (p - 1))) all).

(** A source that pages [all]. *)
Definition servePaged (all : list RepositoryRecord) : Api :=
  {| users := fun _ _ => answered sampleProfile;
     repos := fun _ _ page _ => answered (slice all page) |}.

(** A list of 250 records, to be served in pages. *)
Definition sampleLongList : list RepositoryRecord :=
  repeat (sampleRepo "r" (Some "C"%string) (Some 1)) 250.

(** A page of a deployed site, opened with a query. *)
Definition sampleLocation : Location :=
  {| hostname := lit "gunjan-ghangare.github.io";
     href := lit "https://gunjan-ghangare.github.io/GitHub-Lang-Detector/?user=torvalds" |}.

(** * Properties *)

(** ** Stable sorting *)

Section SortFacts.

Context {A : Type} (comparefn : A -> A -> option Z) (rank : A -> Z).

Lemma ordersBy_incl l l' : incl l' l -> ordersBy comparefn rank l -> ordersBy comparefn rank l'.
Proof. intros Hi Ho a b Ha Hb. apply Ho; apply Hi; assumption. Qed.

Lemma insertSorted_perm x l : Permutation (insertSorted comparefn x l) (x :: l).
Proof.
  induction l as [|y l IH]; simpl.
  - apply Permutation_refl.
  - destruct (goesAfter comparefn x y).
    + eapply perm_trans; [apply perm_skip, IH | apply perm_swap].
    + apply Permutation_refl.
Qed.

Lemma Array_sort_perm l : Permutation (Array_sort comparefn l) l.
Proof.
  induction l as [|x l IH]; simpl.
  - constructor.
  - eapply perm_trans; [apply insertSorted_perm | apply perm_skip, IH].
Qed.

Lemma Array_sort_In l a : In a (Array_sort comparefn l) <-> In a l.
Proof.
  split; apply Permutation_in;
    [apply Array_sort_perm | apply Permutation_sym, Array_sort_perm].
Qed.

Lemma Array_sort_length l : length (Array_sort comparefn l) = length l.
Proof. apply Permutation_length, Array_sort_perm. Qed.

Lemma insertSorted_sorted x l :
  ordersBy comparefn rank (x :: l) -> StronglySorted (rankLe rank) l ->
  StronglySorted (rankLe rank) (insertSorted comparefn x l).
Proof.
  intros Ho Hs. induction Hs as [|y l Hs IH Hall]; simpl.
  - repeat constructor.
  - rewrite (Ho x y) by (simpl; auto).
    destruct (Z.ltb_spec (rank y) (rank x)) as [Hlt|Hge].
    + constructor.
      * apply IH. eapply ordersBy_incl; [|exact Ho].
        intros z [Hz|Hz]; simpl; auto.
      * apply Forall_forall. intros z Hz.
        apply (Permutation_in _ (insertSorted_perm x l)) in Hz.
        destruct Hz as [<-|Hz]; [unfold rankLe; lia|].
        rewrite Forall_forall in Hall. apply Hall, Hz.
    + constructor; [constructor; assumption|].
      constructor; [exact Hge|].
      rewrite Forall_forall in *. intros z Hz.
      specialize (Hall z Hz). unfold rankLe in *. lia.
Qed.

Lemma Array_sort_sorted l :
  ordersBy comparefn rank l -> StronglySorted (rankLe rank) (Array_sort comparefn l).
Proof.
  induction l as [|x l IH]; intros Ho; simpl.
  - constructor.
  - apply insertSorted_sorted.
    + eapply ordersBy_incl; [|exact Ho].
      intros z [Hz|Hz]; simpl; auto. right. apply Array_sort_In, Hz.
    + apply IH. eapply ordersBy_incl; [|exact Ho]. intros z Hz; simpl; auto.
Qed.

(** Insertion lets [x] pass only elements of strictly smaller rank, so
    the elements of any one rank keep their order. *)
Lemma insertSorted_filter x l k :
  ordersBy comparefn rank (x :: l) ->
  filter (hasRank rank k) (insertSorted comparefn x l) = filter (hasRank rank k) (x :: l).
Proof.
  intros Ho. induction l as [|y l IH]; [reflexivity|].
  simpl. rewrite (Ho x y) by (simpl; auto).
  destruct (Z.ltb_spec (rank y) (rank x)) as [Hlt|Hge]; [|reflexivity].
  simpl. rewrite IH.
  - simpl. unfold hasRank.
    destruct (Z.eqb_spec (rank y) k), (Z.eqb_spec (rank x) k); try reflexivity; lia.
  - eapply ordersBy_incl; [|exact Ho]. intros z [Hz|Hz]; simpl; auto.
Qed.

Lemma Array_sort_stable l k :
  ordersBy comparefn rank l ->
  filter (hasRank rank k) (Array_sort comparefn l) = filter (hasRank rank k) l.
Proof.
  induction l as [|x l IH]; intros Ho; [reflexivity|].
  simpl Array_sort. rewrite insertSorted_filter.
  - simpl. rewrite IH; [reflexivity|].
    eapply ordersBy_incl; [|exact Ho]. intros z Hz; simpl; auto.
  - eapply ordersBy_incl; [|exact Ho].
    intros z [Hz|Hz]; simpl; auto. right. apply Array_sort_In, Hz.
Qed.

(** Two lists sorted by rank that hold, rank by rank, the same elements
    in the same order are equal: the result of a stable sort does not
    depend on the algorithm. *)
Lemma sorted_same_ranks_eq l1 : forall l2,
  StronglySorted (rankLe rank) l1 -> StronglySorted (rankLe rank) l2 ->
  (forall k, filter (hasRank rank k) l1 = filter (hasRank rank k) l2) ->
  l1 = l2.
Proof.
  induction l1 as [|x l1 IH]; intros l2 H1 H2 Hf.
  - destruct l2 as [|y l2]; [reflexivity|].
    specialize (Hf (rank y)). simpl in Hf. unfold hasRank in Hf.
    rewrite Z.eqb_refl in Hf. discriminate.
  - destruct l2 as [|y l2].
    + specialize (Hf (rank x)). simpl in Hf. unfold hasRank in Hf.
      rewrite Z.eqb_refl in Hf. discriminate.
    + inversion H1 as [|? ? H1' Hx]; subst. inversion H2 as [|? ? H2' Hy]; subst.
      rewrite Forall_forall in Hx, Hy.
      assert (Hxy : rank x = rank y).
      { pose proof (Hf (rank x)) as Hfx. pose proof (Hf (rank y)) as Hfy.
        simpl in Hfx, Hfy. unfold hasRank in Hfx, Hfy.
        rewrite Z.eqb_refl in Hfx, Hfy.
        destruct (Z.eqb_spec (rank y) (rank x)) as [E|Hne]; [symmetry; exact E|].
        destruct (Z.eqb_spec (rank x) (rank y)) as [E|_]; [exact E|].
        assert (In x l2) as Hin.
        { apply (proj1 (filter_In (fun a => (rank a =? rank x)%Z) x l2)).
          rewrite <- Hfx. left. reflexivity. }
        assert (In y l1) as Hin'.
        { apply (proj1 (filter_In (fun a => (rank a =? rank y)%Z) y l1)).
          rewrite Hfy. left. reflexivity. }
        apply Hx in Hin'. apply Hy in Hin. unfold rankLe in *. lia. }
      assert (x = y) as ->.
      { specialize (Hf (rank x)). simpl in Hf. unfold hasRank in Hf.
        rewrite <- Hxy, Z.eqb_refl in Hf. congruence. }
      f_equal. apply IH; try assumption.
      intros k. specialize (Hf k). simpl in Hf.
      destruct (hasRank rank k y); congruence.
Qed.

Lemma stable_sort_unique l l' :
  ordersBy comparefn rank l -> StronglySorted (rankLe rank) l' ->
  (forall k, filter (hasRank rank k) l' = filter (hasRank rank k) l) ->
  l' = Array_sort comparefn l.
Proof.
  intros Ho Hs Hf. apply sorted_same_ranks_eq.
  - exact Hs.
  - apply Array_sort_sorted, Ho.
  - intros k. rewrite Hf. symmetry. apply Array_sort_stable, Ho.
Qed.

End SortFacts.

(** ** The paginator loop *)

Lemma fetchPagesFrom_step api user headers page allRepos w :
  fetchPagesFrom api user headers page allRepos w =
  let response := repos api user perPage page headers in
  let w' := mkWorld (ui w) (issued w ++ [GetRepos user perPage page headers]) in
  if negb (ok response)
  then (Thrown (message (classify (status response) (statusText response))), w')
  else if (len (json response) <? perPage) || (maxPages <=? page)
       then (Returned (allRepos ++ json response), w')
       else fetchPagesFrom api user headers (page + 1) (allRepos ++ json response) w'.
Proof.
  rewrite fetchPagesFrom_equation_1.
  unfold bind, fetchRepos, record, ret, rejectFailure, throw. simpl.
  destruct (negb (ok (repos api user perPage page headers))); [reflexivity|].
  destruct ((len (json (repos api user perPage page headers)) <? perPage)
            || (maxPages <=? page)); reflexivity.
Qed.

Lemma pagesFrom_cons first n :
  pagesFrom first (S n) = first :: pagesFrom (first + 1) n.
Proof.
  unfold pagesFrom. simpl. rewrite N.add_0_r. f_equal.
  rewrite <- seq_shift, map_map. apply map_ext. intros i. lia.
Qed.

Lemma pagesFrom_length first n : length (pagesFrom first n) = n.
Proof. unfold pagesFrom. rewrite length_map, length_seq. reflexivity. Qed.

Lemma pagesFrom_In first n p :
  In p (pagesFrom first n) <-> first <= p < first + N.of_nat n.
Proof.
  unfold pagesFrom. rewrite in_map_iff. split.
  - intros [i [<- Hi]]. apply in_seq in Hi. lia.
  - intros H. exists (N.to_nat (p - first)). split; [lia|]. apply in_seq. lia.
Qed.

Lemma pagesFrom_snoc first n :
  pagesFrom first (S n) = pagesFrom first n ++ [first + N.of_nat n].
Proof. unfold pagesFrom. rewrite seq_S, map_app. reflexivity. Qed.

Section Paginator.

Variables (api : Api) (user : jsstring) (headers : Headers).

Lemma loop_stops page allRepos :
  ok (pageResponse api user headers page) = false
  \/ (len (pageItems api user headers page) <? perPage) || (maxPages <=? page) = true ->
  exists out, loopRuns api user headers page allRepos 0 out.
Proof.
  intros Hcase. unfold loopRuns, endsOn.
  rewrite N.add_0_r, (pagesFrom_cons page 0).
  change (pagesFrom (page + 1) 0) with (@nil N).
  change (pagesFrom page 0) with (@nil N).
  destruct (ok (pageResponse api user headers page)) eqn:Hok.
  - destruct Hcase as [Hcase|Hcase]; [discriminate|].
    exists (Returned (allRepos ++ pageItems api user headers page)).
    split; [simpl; lia|]. split.
    { intros w. rewrite fetchPagesFrom_step. cbv zeta.
      fold (pageResponse api user headers page). fold (pageItems api user headers page).
      rewrite Hok, Hcase. reflexivity. }
    split; [intros p []|].
    right. split; [reflexivity|]. split.
    + apply orb_true_iff in Hcase. rewrite N.ltb_lt, N.leb_le in Hcase.
      exact Hcase.
    + simpl. rewrite app_nil_r. reflexivity.
  - exists (Thrown (message (classify (status (pageResponse api user headers page))
                                      (statusText (pageResponse api user headers page))))).
    split; [simpl; lia|]. split.
    { intros w. rewrite fetchPagesFrom_step. cbv zeta.
      fold (pageResponse api user headers page). rewrite Hok. reflexivity. }
    split; [intros p []|].
    left. split; reflexivity.
Qed.

Lemma fetchPagesFrom_spec : forall (d : nat) page allRepos,
  N.to_nat (maxPages - page) = d ->
  exists k out, loopRuns api user headers page allRepos k out.
Proof.
  induction d as [|d IH]; intros page allRepos Hd;
    destruct (ok (pageResponse api user headers page)) eqn:Hok;
    try (exists 0%nat; apply loop_stops; left; assumption);
    destruct ((len (pageItems api user headers page) <? perPage) || (maxPages <=? page)) eqn:Hstop;
    try (exists 0%nat; apply loop_stops; right; assumption).
  - apply orb_false_elim in Hstop. destruct Hstop as [_ H].
    apply N.leb_gt in H. lia.
  - pose proof Hstop as Hstop'.
    apply orb_false_elim in Hstop. destruct Hstop as [Hlen Hpage].
    apply N.ltb_ge in Hlen. apply N.leb_gt in Hpage.
    destruct (IH (page + 1) (allRepos ++ pageItems api user headers page))
      as [k [out [Hk [Hw [Hfull Hlast]]]]]; [lia|].
    exists (S k), out. unfold loopRuns, endsOn in *.
    replace (page + N.of_nat (S k)) with (page + 1 + N.of_nat k) by lia.
    split; [lia|]. split.
    { intros w. rewrite (fetchPagesFrom_step api user headers page). cbv zeta.
      fold (pageResponse api user headers page).
      fold (pageItems api user headers page).
      fold (pageRequest user headers page).
      rewrite Hok, Hstop'. simpl negb. cbv iota. rewrite Hw.
      simpl ui. simpl issued. rewrite (pagesFrom_cons page (S k)).
      simpl map. rewrite <- app_assoc. reflexivity. }
    split.
    { intros p Hp. rewrite pagesFrom_cons in Hp. destruct Hp as [<-|Hp].
      - split; assumption.
      - apply Hfull, Hp. }
    destruct Hlast as [[Hbad Hres]|[Hgood [Hend Hres]]].
    + left. split; assumption.
    + right. repeat split; try assumption.
      rewrite Hres, (pagesFrom_cons page (S k)). simpl. rewrite <- app_assoc.
      reflexivity.
Qed.

(** The paginator proper: the loop from page 1 with nothing collected. *)
Lemma fetchAllPages_spec : exists k out, loopRuns api user headers 1 [] k out.
Proof. apply (fetchPagesFrom_spec (N.to_nat (maxPages - 1))). reflexivity. Qed.

Lemma fetchAllPages_run w :
  fetchAllPages api user headers w =
  (fst (paginate api user headers),
   mkWorld (ui w) (issued w ++ snd (paginate api user headers))).
Proof.
  destruct fetchAllPages_spec as [k [out [_ [Hw _]]]].
  unfold paginate, fetchAllPages. rewrite !Hw. reflexivity.
Qed.

End Paginator.

(** ** The runs of [fetchData], phase by phase *)

Lemma trim_blank user : negb (truthy (trim user)) = true <-> trim user = [].
Proof. destruct (trim user); simpl; split; congruence. Qed.

Lemma trim_not_blank user : negb (truthy (trim user)) = false <-> trim user <> [].
Proof. destruct (trim user); simpl; split; congruence. Qed.

Lemma fetchData_run api arg st :
  let user := userOf arg st in
  let headers := requestHeaders (token st) in
  let userResponse := users api user headers in
  fetchData api arg st =
  if negb (truthy (trim user))
  then mkWorld (setError (Some (message ValidationError)) st) []
  else if negb (ok userResponse)
  then mkWorld (failed (message (classify (status userResponse) (statusText userResponse)))
                       (opened st))
               [GetUser user headers]
  else
    let st1 := setUserProfile (Some (json userResponse)) (opened st) in
    let reqs := GetUser user headers :: snd (paginate api user headers) in
    match fst (paginate api user headers) with
    | Thrown msg => mkWorld (failed msg st1) reqs
    | Returned allRepos =>
        let st2 := setRepoCount (len allRepos) st1 in
        if len allRepos =? 0 then mkWorld (failed (message EmptyResult) st2) reqs
        else if negb (snd (tally allRepos))
             then mkWorld (failed (message NoLanguageData) st2) reqs
             else mkWorld (succeeded allRepos st2) reqs
    end.
Proof.
  cbv zeta. unfold fetchData. fold (userOf arg st).
  remember (paginate api (userOf arg st) (requestHeaders (token st))) as pages eqn:Hpages.
  destruct (negb (truthy (trim (userOf arg st)))); [reflexivity|].
  unfold tryBlock, bind, fetchUser, record, ret, rejectFailure, write. simpl.
  destruct (ok (users api (userOf arg st) (requestHeaders (token st)))); simpl;
    [|reflexivity].
  rewrite fetchAllPages_run, <- Hpages.
  destruct pages as [[allRepos|msg] reqs]; simpl; [|reflexivity].
  destruct (len allRepos =? 0); [reflexivity|].
  unfold aggregate, succeeded.
  destruct (tally allRepos) as [langMap hasLang]. simpl.
  destruct hasLang; reflexivity.
Qed.

(** The shorter variant runs the same way, without the profile lookup, the
    statistics and the ranking. *)
Lemma basic_fetchData_run api arg st :
  let user := userOf arg st in
  let headers := requestHeaders (token st) in
  Basic.fetchData api arg st =
  if negb (truthy (trim user))
  then mkWorld (setError (Some (message ValidationError)) st) []
  else
    let reqs := snd (paginate api user headers) in
    match fst (paginate api user headers) with
    | Thrown msg => mkWorld (failed msg (Basic.opened st)) reqs
    | Returned allRepos =>
        let st2 := setRepoCount (len allRepos) (Basic.opened st) in
        if len allRepos =? 0 then mkWorld (failed (message EmptyResult) st2) reqs
        else if negb (snd (tally allRepos))
             then mkWorld (failed (message NoLanguageData) st2) reqs
             else mkWorld (setLoading false
                             (setData (Some (processedData (fst (tally allRepos)))) st2))
                          reqs
    end.
Proof.
  cbv zeta. unfold Basic.fetchData. fold (userOf arg st).
  remember (paginate api (userOf arg st) (requestHeaders (token st))) as pages eqn:Hpages.
  destruct (negb (truthy (trim (userOf arg st)))); [reflexivity|].
  unfold Basic.tryBlock, bind, write.
  rewrite fetchAllPages_run, <- Hpages.
  destruct pages as [[allRepos|msg] reqs]; simpl; [|reflexivity].
  destruct (len allRepos =? 0); [reflexivity|].
  destruct (tally allRepos) as [langMap hasLang]. simpl.
  destruct hasLang; reflexivity.
Qed.

(** X11.  When the profile lookup succeeds the two variants of the
    component ask for the same pages and settle on the same [error], [data]
    and [repoCount]; the longer one issues the profile lookup first. *)
Lemma variants_agree api arg st :
  ok (users api (userOf arg st) (requestHeaders (token st))) = true ->
  error (ui (fetchData api arg st)) = error (ui (Basic.fetchData api arg st)) /\
  data (ui (fetchData api arg st)) = data (ui (Basic.fetchData api arg st)) /\
  repoCount (ui (fetchData api arg st)) = repoCount (ui (Basic.fetchData api arg st)) /\
  (trim (userOf arg st) <> [] ->
   issued (fetchData api arg st) =
   GetUser (userOf arg st) (requestHeaders (token st))
     :: issued (Basic.fetchData api arg st)).
Proof.
  intros Hprofile. rewrite fetchData_run, basic_fetchData_run. cbv zeta.
  rewrite Hprofile.
  destruct (negb (truthy (trim (userOf arg st)))) eqn:Hvalid.
  { apply trim_blank in Hvalid. repeat split. intros H. contradiction. }
  simpl negb. cbv iota.
  destruct (fst (paginate _ _ _)) as [allRepos|msg]; [|repeat split].
  destruct (len allRepos =? 0); [repeat split|].
  destruct (negb (snd (tally allRepos))); repeat split.
Qed.

(** ** Ranking and statistics *)

Lemma byStarsDesc_ordersBy l : ordersBy byStarsDesc starRank l.
Proof.
  intros a b _ _. unfold goesAfter, byStarsDesc, starRank, starsOf.
  destruct (Z.ltb_spec 0 (Z.of_N (orZero (stargazers_count b))
                          - Z.of_N (orZero (stargazers_count a))));
    destruct (Z.ltb_spec (- Z.of_N (orZero (stargazers_count b)))
                         (- Z.of_N (orZero (stargazers_count a))));
    try reflexivity; lia.
Qed.

Lemma StronglySorted_weaken {A} (R R' : A -> A -> Prop) l :
  (forall a b, R a b -> R' a b) -> StronglySorted R l -> StronglySorted R' l.
Proof.
  intros HR Hs. induction Hs as [|x l Hs IH Hall]; constructor; [assumption|].
  eapply Forall_impl; [|exact Hall]. intros b. apply HR.
Qed.

Lemma StronglySorted_firstn {A} (R : A -> A -> Prop) n l :
  StronglySorted R l -> StronglySorted R (firstn n l).
Proof.
  intros Hs. revert n. induction Hs as [|x l Hs IH Hall]; intros [|n]; simpl;
    try constructor.
  - apply IH.
  - rewrite Forall_forall in *. intros y Hy. apply Hall.
    rewrite <- (firstn_skipn n l). apply in_or_app. left. exact Hy.
Qed.

Lemma StronglySorted_map {A B} (f : A -> B) (R : A -> A -> Prop) (R' : B -> B -> Prop) l :
  (forall a b, R a b -> R' (f a) (f b)) ->
  StronglySorted R l -> StronglySorted R' (map f l).
Proof.
  intros HR Hs. induction Hs as [|x l Hs IH Hall]; simpl; constructor; [assumption|].
  rewrite Forall_forall in *. intros y Hy. apply in_map_iff in Hy.
  destruct Hy as [a [<- Ha]]. apply HR, Hall, Ha.
Qed.

Lemma filter_map_commute {A B} (f : A -> B) (p : B -> bool) l :
  filter p (map f l) = map f (filter (fun a => p (f a)) l).
Proof.
  induction l as [|x l IH]; simpl; [reflexivity|].
  destruct (p (f x)); simpl; rewrite IH; reflexivity.
Qed.

Lemma withStars_hasRank k l :
  filter (withStars k) l = filter (hasRank starRank (- Z.of_N k)) l.
Proof.
  apply filter_ext. intros r. unfold withStars, hasRank, starRank.
  destruct (N.eqb_spec (starsOf r) k), (Z.eqb_spec (- Z.of_N (starsOf r)) (- Z.of_N k));
    try reflexivity; lia.
Qed.

(** The repositories ranked by stars: a stable rearrangement of the input
    in descending order. *)
Lemma ranked_by_stars allRepos :
  let ranked := Array_sort byStarsDesc allRepos in
  Permutation ranked allRepos /\
  StronglySorted moreStars ranked /\
  forall k, filter (withStars k) ranked = filter (withStars k) allRepos.
Proof.
  cbv zeta. split; [apply Array_sort_perm|]. split.
  - eapply StronglySorted_weaken;
      [|apply (Array_sort_sorted byStarsDesc starRank), byStarsDesc_ordersBy].
    unfold rankLe, starRank, moreStars. intros a b. lia.
  - intros k. rewrite !withStars_hasRank.
    apply Array_sort_stable, byStarsDesc_ordersBy.
Qed.

(** C2.  The ranking written to [topRepos] has min(5, n) entries, in
    descending order of [stargazers_count || 0]; entries with the same
    number of stars stand in the order of their records in the input (for
    each number of stars, the entries that have it are the first of the
    input's records that have it, in input order); and the entries are the
    first five of a stable descending rearrangement of the whole input. *)
Theorem top5Repos_ranking (allRepos : list RepositoryRecord) :
  len (top5Repos allRepos) = N.min 5 (len allRepos) /\
  StronglySorted moreStarsEntry (top5Repos allRepos) /\
  (forall k, exists rest,
      map toTopEntry (filter (withStars k) allRepos) =
      filter (entryWithStars k) (top5Repos allRepos) ++ rest) /\
  (exists ranked,
      Permutation ranked allRepos /\ StronglySorted moreStars ranked /\
      (forall k, filter (withStars k) ranked = filter (withStars k) allRepos) /\
      top5Repos allRepos = map toTopEntry (firstn 5 ranked)).
Proof.
  destruct (ranked_by_stars allRepos) as [Hperm [Hsorted Hstable]].
  split; [|split; [|split]].
  - unfold top5Repos, len.
    rewrite length_map, length_firstn, Array_sort_length.
    change 5 with (N.of_nat 5). rewrite <- Nat2N.inj_min. reflexivity.
  - unfold top5Repos.
    apply (StronglySorted_map toTopEntry moreStars); [intros a b H; exact H|].
    apply StronglySorted_firstn, Hsorted.
  - intros k.
    exists (map toTopEntry
              (filter (withStars k) (skipn 5 (Array_sort byStarsDesc allRepos)))).
    unfold top5Repos. rewrite filter_map_commute, <- map_app, <- filter_app.
    rewrite firstn_skipn. change (fun a => entryWithStars k (toTopEntry a)) with (withStars k).
    rewrite Hstable. reflexivity.
  - exists (Array_sort byStarsDesc allRepos). repeat split; assumption.
Qed.







(** ** The paginator: order, stopping and bound *)

Lemma len_app {A} (l l' : list A) : len (l ++ l') = len l + len l'.
Proof. unfold len. rewrite length_app. lia. Qed.

Lemma len_concat_bound {A} (ls : list (list A)) b :
  Forall (fun l => len l <= b) ls -> len (concat ls) <= len ls * b.
Proof.
  induction 1 as [|l ls Hl _ IH]; [unfold len; simpl; lia|].
  cbn [concat]. rewrite len_app. unfold len in *. cbn [length].
  rewrite Nat2N.inj_succ, N.mul_succ_l. lia.
Qed.

Lemma len_concat_exact {A} (ls : list (list A)) b :
  Forall (fun l => len l = b) ls -> len (concat ls) = len ls * b.
Proof.
  induction 1 as [|l ls Hl _ IH]; [reflexivity|].
  cbn [concat]. rewrite len_app. unfold len in *. cbn [length].
  rewrite Nat2N.inj_succ, N.mul_succ_l. lia.
Qed.

Lemma loopRuns_requests api user headers k out :
  loopRuns api user headers 1 [] k out ->
  paginate api user headers = (out, map (pageRequest user headers) (pagesFrom 1 (S k))).
Proof.
  intros [_ [Hw _]]. unfold paginate, fetchAllPages. rewrite Hw. reflexivity.
Qed.

(** The shape of every run of the paginator, in terms of the number [n]
    of requests it issues. *)
Lemma paginate_shape api user headers :
  exists (n : nat) out,
    paginate api user headers = (out, map (pageRequest user headers) (pagesFrom 1 n)) /\
    (1 <= n <= 10)%nat /\
    (forall p, 1 <= p < N.of_nat n -> fullPage api user headers p) /\
    ((ok (pageResponse api user headers (N.of_nat n)) = false /\
      out = Thrown (message (classify (status (pageResponse api user headers (N.of_nat n)))
                                      (statusText (pageResponse api user headers (N.of_nat n))))))
     \/
     (ok (pageResponse api user headers (N.of_nat n)) = true /\
      (len (pageItems api user headers (N.of_nat n)) < perPage \/ n = 10%nat) /\
      out = Returned (concat (map (pageItems api user headers) (pagesFrom 1 n))))).
Proof.
  destruct (fetchAllPages_spec api user headers) as [k [out H]].
  exists (S k), out. split; [apply loopRuns_requests, H|].
  destruct H as [Hk [_ [Hfull Hend]]]. unfold maxPages in Hk.
  split; [lia|]. split.
  - intros p Hp. apply Hfull, pagesFrom_In. lia.
  - unfold endsOn in Hend. replace (1 + N.of_nat k) with (N.of_nat (S k)) in Hend by lia.
    destruct Hend as [Hbad|[Hgood [Hstop Hout]]]; [left; exact Hbad|].
    right. split; [exact Hgood|]. split; [|exact Hout].
    destruct Hstop as [Hshort|Hcap]; [left; exact Hshort|].
    right. unfold maxPages in Hcap. lia.
Qed.

(** C4.  The paginator asks for the pages 1, 2, ..., n one after the
    other, in this order; every page before the last was answered with a
    success carrying at least [perPage] items, so the first page with fewer
    items is the last one asked for; when it returns, the result is the
    concatenation of the pages in request order.  In particular, against a
    source that answers pages 1 to 3 with exactly [perPage] items and page
    4 with [perPage - 1] items, it issues exactly the four requests for
    pages 1 to 4 and returns [3 * perPage + (perPage - 1)] items. *)
Theorem paginator_order_and_stop (api : Api) (user : jsstring) (headers : Headers) :
  (exists (n : nat) out,
      paginate api user headers = (out, map (pageRequest user headers) (pagesFrom 1 n)) /\
      (1 <= n)%nat /\
      (forall p, 1 <= p < N.of_nat n ->
                 ok (pageResponse api user headers p) = true /\
                 perPage <= len (pageItems api user headers p)) /\
      (forall allRepos, out = Returned allRepos ->
                        allRepos = concat (map (pageItems api user headers) (pagesFrom 1 n))))
  /\
  ((forall p, 1 <= p <= 3 -> ok (pageResponse api user headers p) = true /\
                             len (pageItems api user headers p) = perPage) ->
   ok (pageResponse api user headers 4) = true ->
   len (pageItems api user headers 4) = perPage - 1 ->
   exists allRepos,
     paginate api user headers =
       (Returned allRepos, map (pageRequest user headers) [1; 2; 3; 4]) /\
     len allRepos = 3 * perPage + (perPage - 1)).
Proof.
  destruct (paginate_shape api user headers) as [n [out [Hrun [Hn [Hfull Hend]]]]].
  split.
  - exists n, out. split; [exact Hrun|]. split; [lia|]. split; [exact Hfull|].
    intros allRepos ->. destruct Hend as [[_ Hout]|[_ [_ Hout]]]; [discriminate|].
    injection Hout as ->. reflexivity.
  - intros H123 Hok4 Hlen4.
    assert (Hn4 : n = 4%nat).
    { assert (n <= 4)%nat as Hle.
      { destruct (Nat.le_gt_cases n 4) as [H|H]; [exact H|].
        destruct (Hfull 4) as [_ Hfour]; [lia|]. unfold perPage in *. lia. }
      destruct Hend as [[Hbad _]|[_ [[Hshort|Hten] _]]].
      - destruct (Nat.eq_dec n 4) as [->|Hne]; [reflexivity|].
        destruct (H123 (N.of_nat n)) as [Hgood _]; [lia|]. congruence.
      - destruct (Nat.eq_dec n 4) as [->|Hne]; [reflexivity|].
        destruct (H123 (N.of_nat n)) as [_ Hl]; [lia|]. lia.
      - lia. }
    subst n. destruct Hend as [[Hbad _]|[_ [_ Hout]]]; [simpl in Hbad; congruence|].
    subst out. eexists. split; [exact Hrun|].
    change (pagesFrom 1 4) with [1; 2; 3; 4]. cbn [map concat].
    rewrite app_nil_r, !len_app.
    rewrite (proj2 (H123 1 ltac:(lia))), (proj2 (H123 2 ltac:(lia))),
            (proj2 (H123 3 ltac:(lia))), Hlen4.
    unfold perPage. reflexivity.
Qed.

(** C5 (as amended).  Whatever the source answers, the paginator issues at
    least one and at most [maxPages] = 10 requests, for the pages 1, ..., n;
    against a source that answers every page with a success carrying exactly
    [perPage] items it issues exactly [maxPages] requests and returns
    [maxPages * perPage] items; and when no page carries more than [perPage]
    items, no more than [perPage * maxPages] = 1000 items are returned. *)
Theorem paginator_bound (api : Api) (user : jsstring) (headers : Headers) :
  (exists (n : nat) out,
      paginate api user headers = (out, map (pageRequest user headers) (pagesFrom 1 n)) /\
      (1 <= n <= N.to_nat maxPages)%nat)
  /\
  ((forall p, ok (pageResponse api user headers p) = true /\
              len (pageItems api user headers p) = perPage) ->
   exists allRepos,
     paginate api user headers =
       (Returned allRepos, map (pageRequest user headers) (pagesFrom 1 (N.to_nat maxPages))) /\
     len allRepos = maxPages * perPage)
  /\
  ((forall p, len (pageItems api user headers p) <= perPage) ->
   forall allRepos, fst (paginate api user headers) = Returned allRepos ->
                    len allRepos <= perPage * maxPages).
Proof.
  destruct (paginate_shape api user headers) as [n [out [Hrun [Hn [Hfull Hend]]]]].
  change (N.to_nat maxPages) with 10%nat.
  split; [exists n, out; split; assumption|]. split.
  - intros Hall.
    assert (n = 10%nat) as ->.
    { destruct Hend as [[Hbad _]|[_ [[Hshort|Hten] _]]].
      - rewrite (proj1 (Hall _)) in Hbad. discriminate.
      - rewrite (proj2 (Hall _)) in Hshort. lia.
      - exact Hten. }
    destruct Hend as [[Hbad _]|[_ [_ Hout]]];
      [rewrite (proj1 (Hall _)) in Hbad; discriminate|].
    subst out. eexists. split; [exact Hrun|].
    rewrite (len_concat_exact _ perPage).
    + unfold len. rewrite length_map, pagesFrom_length. reflexivity.
    + apply Forall_forall. intros l Hl. apply in_map_iff in Hl.
      destruct Hl as [p [<- _]]. apply Hall.
  - intros Hsize allRepos Hret. rewrite Hrun in Hret. simpl in Hret. subst out.
    destruct Hend as [[_ Hout]|[_ [_ Hout]]]; [discriminate|].
    injection Hout as ->.
    eapply N.le_trans; [apply (len_concat_bound _ perPage)|].
    + apply Forall_forall. intros l Hl. apply in_map_iff in Hl.
      destruct Hl as [p [<- _]]. apply Hsize.
    + unfold len. rewrite length_map, pagesFrom_length. unfold perPage, maxPages. lia.
Qed.

(** ** Error classification *)

Lemma classify_table :
  (forall text, classify 404 text = NotFound /\
                classify 403 text = RateLimited /\
                classify 401 text = Unauthorized) /\
  (forall code text, code <> 404 -> code <> 403 -> code <> 401 ->
                     classify code text = Unclassified code text /\
                     contains (message (classify code text)) (toString code) /\
                     contains (message (classify code text)) text).
Proof.
  split; [intros text; repeat split|].
  intros code text H404 H403 H401. unfold classify.
  destruct (N.eqb_spec code 404); [contradiction|].
  destruct (N.eqb_spec code 403); [contradiction|].
  destruct (N.eqb_spec code 401); [contradiction|].
  split; [reflexivity|]. split.
  - exists (lit "GitHub API Error: "), (lit " " ++ text). reflexivity.
  - exists (lit "GitHub API Error: " ++ toString code ++ lit " "), [].
    simpl message. rewrite app_nil_r, <- !app_assoc. reflexivity.
Qed.

(** The requests of a run: none when the user name is blank, the profile
    lookup alone when it fails, else the profile lookup followed by the
    requests of the paginator. *)
Lemma fetchData_issued api arg st :
  issued (fetchData api arg st) =
  if negb (truthy (trim (userOf arg st))) then []
  else if negb (ok (users api (userOf arg st) (requestHeaders (token st))))
       then [GetUser (userOf arg st) (requestHeaders (token st))]
       else GetUser (userOf arg st) (requestHeaders (token st))
              :: snd (paginate api (userOf arg st) (requestHeaders (token st))).
Proof.
  rewrite fetchData_run. cbv zeta.
  destruct (negb (truthy (trim (userOf arg st)))); [reflexivity|].
  destruct (negb (ok _)); [reflexivity|].
  destruct (fst (paginate _ _ _)) as [allRepos|msg]; [|reflexivity].
  destruct (len allRepos =? 0); [reflexivity|].
  destruct (negb (snd (tally allRepos))); reflexivity.
Qed.

(** The failing response of a run, if there is one, is the answer to the
    last request, and the run settles on its classification. *)
Lemma failing_response_is_last api arg st rq :
  let w := fetchData api arg st in
  In rq (issued w) -> responseOk api rq = false ->
  (exists before, issued w = before ++ [rq]) /\
  ui w = failed (message (classify (responseStatus api rq) (responseText api rq)))
           (match rq with
            | GetUser _ _ => opened st
            | GetRepos _ _ _ _ =>
                setUserProfile
                  (Some (json (users api (userOf arg st) (requestHeaders (token st)))))
                  (opened st)
            end).
Proof.
  cbv zeta. rewrite fetchData_issued, fetchData_run. cbv zeta.
  destruct (negb (truthy (trim (userOf arg st)))); [intros []|].
  destruct (ok (users api (userOf arg st) (requestHeaders (token st)))) eqn:Hprofile;
    simpl negb; cbv iota.
  - destruct (paginate_shape api (userOf arg st) (requestHeaders (token st)))
      as [n [out [Hrun [Hn [Hfull Hend]]]]].
    rewrite Hrun. cbn [fst snd].
    assert (Hlast : pagesFrom 1 n = pagesFrom 1 (n - 1) ++ [N.of_nat n]).
    { destruct n as [|m]; [lia|]. rewrite pagesFrom_snoc.
      replace (S m - 1)%nat with m by lia. f_equal. f_equal. lia. }
    intros [<-|Hrq] Hbad; [simpl in Hbad; congruence|].
    apply in_map_iff in Hrq. destruct Hrq as [p [<- Hp]].
    simpl in Hbad. apply pagesFrom_In in Hp.
    assert (p = N.of_nat n) as ->.
    { destruct (N.eq_dec p (N.of_nat n)) as [E|Hne]; [exact E|].
      destruct (Hfull p) as [Hgood _]; [lia|].
      unfold pageResponse in Hgood. congruence. }
    destruct Hend as [[_ ->]|[Hgood _]];
      [|unfold pageResponse in Hgood; congruence].
    split; [|reflexivity].
    exists (GetUser (userOf arg st) (requestHeaders (token st))
              :: map (pageRequest (userOf arg st) (requestHeaders (token st)))
                   (pagesFrom 1 (n - 1))).
    rewrite Hlast, map_app. reflexivity.
  - intros [<-|[]] _. split; [exists []; reflexivity|reflexivity].
Qed.

(** C6.  The classification is the same on every request: a status of
    404 is [NotFound], 403 is [RateLimited], 401 is [Unauthorized], and any
    other status is [Unclassified], with a message that contains the status
    code and the status text; and whenever a request issued by a run,
    profile lookup or page request alike, is answered with a failure, the
    run ends with the message of that classification in [error]. *)
Theorem error_classification (api : Api) (arg : option jsstring) (st : AppState) :
  (forall text, classify 404 text = NotFound /\
                classify 403 text = RateLimited /\
                classify 401 text = Unauthorized) /\
  (forall code text, code <> 404 -> code <> 403 -> code <> 401 ->
                     classify code text = Unclassified code text /\
                     contains (message (classify code text)) (toString code) /\
                     contains (message (classify code text)) text) /\
  (forall rq, In rq (issued (fetchData api arg st)) ->
              responseOk api rq = false ->
              error (ui (fetchData api arg st)) =
                Some (message (classify (responseStatus api rq) (responseText api rq)))).
Proof.
  destruct classify_table as [H1 H2]. split; [exact H1|]. split; [exact H2|].
  intros rq Hin Hbad.
  destruct (failing_response_is_last api arg st rq Hin Hbad) as [_ ->].
  reflexivity.
Qed.

(** C7.  When a page request of a run is answered with a failure, that
    request is the last one issued, the run ends with the classified
    failure in [error], and nothing of the pages fetched before reaches the
    state: [data] is [null], and [repoCount], [topRepos] and [repoStats]
    are as they were before the call. *)
Theorem page_failure_aborts (api : Api) (arg : option jsstring) (st : AppState)
  (user : jsstring) (n page : N) (headers : Headers)
  (Hissued : In (GetRepos user n page headers) (issued (fetchData api arg st)))
  (Hfailure : ok (repos api user n page headers) = false) :
  let w := fetchData api arg st in
  (exists before, issued w = before ++ [GetRepos user n page headers]) /\
  error (ui w) = Some (message (classify (status (repos api user n page headers))
                                         (statusText (repos api user n page headers)))) /\
  loading (ui w) = false /\
  data (ui w) = None /\
  repoCount (ui w) = repoCount st /\
  topRepos (ui w) = topRepos st /\
  repoStats (ui w) = repoStats st.
Proof.
  cbv zeta.
  destruct (failing_response_is_last api arg st _ Hissued Hfailure) as [Hlast ->].
  split; [exact Hlast|]. repeat split.
Qed.

(** ** Language-bearing records *)

Lemma tallyRepo_silent acc repo : speaks repo = false -> tallyRepo acc repo = acc.
Proof.
  unfold speaks, tallyRepo. destruct (language repo) as [l|]; [|reflexivity].
  intros ->. reflexivity.
Qed.



Lemma fold_tally_silent rs : forall acc,
  Forall (fun r => speaks r = false) rs -> fold_left tallyRepo rs acc = acc.
Proof.
  induction rs as [|r rs IH]; intros acc H; [reflexivity|].
  inversion H; subst. simpl. rewrite tallyRepo_silent by assumption. apply IH. assumption.
Qed.

(** ** The phases of a run *)


(** ** What a failed run leaves in the state *)


(** C10.  A record whose [language] is the empty string is passed over by
    the tally exactly as one whose [language] is [null] or absent: it adds
    no entry and does not set [hasLang].  So when the paginator returns a
    non-empty list in which every [language] is [null], absent or the empty
    string, the run fails with [NoLanguageData] and writes no histogram. *)
Theorem empty_language_is_no_language (api : Api) (arg : option jsstring)
  (st : AppState) (allRepos : list RepositoryRecord)
  (Hvalid : trim (userOf arg st) <> [])
  (Hprofile : ok (users api (userOf arg st) (requestHeaders (token st))) = true)
  (Hpages : fst (paginate api (userOf arg st) (requestHeaders (token st))) = Returned allRepos)
  (Hnonempty : allRepos <> [])
  (Hsilent : forall r, In r allRepos -> language r = None \/ language r = Some []) :
  (forall acc r, In r allRepos -> tallyRepo acc r = acc) /\
  tally allRepos = ([], false) /\
  error (ui (fetchData api arg st)) = Some (message NoLanguageData) /\
  data (ui (fetchData api arg st)) = None.
Proof.
  assert (Hs : forall r, In r allRepos -> speaks r = false).
  { intros r Hr. unfold speaks. destruct (Hsilent r Hr) as [-> | ->]; reflexivity. }
  assert (Ht : tally allRepos = ([], false)).
  { apply fold_tally_silent, Forall_forall, Hs. }
  split; [intros acc r Hr; apply tallyRepo_silent, Hs, Hr|]. split; [exact Ht|].
  rewrite fetchData_run. cbv zeta. apply trim_not_blank in Hvalid.
  rewrite Hvalid, Hprofile, Hpages, Ht. simpl negb. cbv iota.
  destruct (N.eqb_spec (len allRepos) 0) as [E|_].
  { destruct allRepos; [contradiction | discriminate]. }
  split; reflexivity.
Qed.

(** ** The language histogram *)

Lemma eqb_eq a b : eqb a b = true <-> a = b.
Proof. unfold eqb. destruct (list_eq_dec N.eq_dec a b); split; congruence. Qed.

Lemma eqb_refl a : eqb a a = true.
Proof. apply eqb_eq. reflexivity. Qed.

Lemma eqb_neq a b : eqb a b = false <-> a <> b.
Proof. unfold eqb. destruct (list_eq_dec N.eq_dec a b); split; congruence. Qed.

Lemma eqb_sym a b : eqb a b = eqb b a.
Proof.
  destruct (eqb b a) eqn:E; [apply eqb_eq in E; subst; apply eqb_refl|].
  apply eqb_neq. apply eqb_neq in E. congruence.
Qed.

Lemma existsb_eqb x l : existsb (eqb x) l = true <-> In x l.
Proof.
  rewrite existsb_exists. split.
  - intros [y [Hy E]]. apply eqb_eq in E. subst. exact Hy.
  - intros H. exists x. split; [exact H | apply eqb_refl].
Qed.

Lemma fold_tally_names rs : forall acc,
  fold_left tallyRepo rs acc = fold_left tallyName (languagesOf rs) acc.
Proof.
  induction rs as [|r rs IH]; intros acc; [reflexivity|].
  simpl. rewrite fold_left_app, IH. f_equal.
  unfold tallyRepo. destruct (language r) as [l|]; [|reflexivity].
  destruct (truthy l); reflexivity.
Qed.

Lemma languagesOf_truthy rs l : In l (languagesOf rs) -> l <> [].
Proof.
  unfold languagesOf. rewrite in_flat_map. intros [r [_ H]].
  destruct (language r) as [l'|]; [|contradiction].
  destruct l'; simpl in H; [contradiction|]. destruct H as [<-|[]]. discriminate.
Qed.

Lemma languagesOf_In rs l :
  In l (languagesOf rs) <-> l <> [] /\ exists r, In r rs /\ language r = Some l.
Proof.
  split.
  - intros H. split; [eapply languagesOf_truthy, H|].
    unfold languagesOf in H. rewrite in_flat_map in H. destruct H as [r [Hr H]].
    exists r. split; [exact Hr|]. destruct (language r) as [l'|]; [|contradiction].
    destruct (truthy l'); [|contradiction]. destruct H as [<-|[]]. reflexivity.
  - intros [Hne [r [Hr Hl]]]. unfold languagesOf. rewrite in_flat_map.
    exists r. split; [exact Hr|]. rewrite Hl. destruct l; [contradiction|].
    left. reflexivity.
Qed.

Lemma languagesOf_length rs : len (languagesOf rs) = len (filter speaks rs).
Proof.
  induction rs as [|r rs IH]; [reflexivity|].
  simpl. rewrite len_app, IH. unfold speaks.
  destruct (language r) as [l|]; [|reflexivity].
  destruct (truthy l); unfold len; simpl length; lia.
Qed.

Lemma countOf_recordsWith rs l :
  l <> [] -> countOf l (languagesOf rs) = recordsWith l rs.
Proof.
  intros Hne. unfold countOf, recordsWith.
  induction rs as [|r rs IH]; [reflexivity|].
  simpl. rewrite filter_app, len_app, IH.
  destruct (language r) as [l'|]; [|reflexivity].
  destruct (truthy l') eqn:Ht.
  - simpl. rewrite (eqb_sym l l'). destruct (eqb l' l); unfold len; simpl length; lia.
  - destruct l'; [|discriminate].
    assert (eqb [] l = false) as -> by (apply eqb_neq; congruence). reflexivity.
Qed.

Lemma countOf_snoc l ls x :
  countOf l (ls ++ [x]) = countOf l ls + (if eqb l x then 1 else 0).
Proof.
  unfold countOf. rewrite filter_app, len_app. simpl. destruct (eqb l x); reflexivity.
Qed.

Lemma countOf_In l ls : In l ls <-> 1 <= countOf l ls.
Proof.
  unfold countOf. split.
  - intros H. assert (In l (filter (eqb l) ls)) as Hin.
    { apply filter_In. split; [exact H | apply eqb_refl]. }
    destruct (filter (eqb l) ls); [contradiction|]. unfold len. simpl length. lia.
  - intros H. destruct (filter (eqb l) ls) as [|y f] eqn:E; [unfold len in H; simpl in H; lia|].
    assert (In y (filter (eqb l) ls)) as Hy by (rewrite E; left; reflexivity).
    apply filter_In in Hy. destruct Hy as [Hy Heq]. apply eqb_eq in Heq. subst. exact Hy.
Qed.

Lemma firstSeen_snoc ls x :
  firstSeen (ls ++ [x]) =
  if existsb (eqb x) (firstSeen ls) then firstSeen ls else firstSeen ls ++ [x].
Proof. unfold firstSeen. rewrite fold_left_app. reflexivity. Qed.

Lemma firstSeen_In ls : forall l, In l (firstSeen ls) <-> In l ls.
Proof.
  induction ls as [|x ls IH] using rev_ind; intros l; [reflexivity|].
  rewrite firstSeen_snoc, in_app_iff. simpl.
  destruct (existsb (eqb x) (firstSeen ls)) eqn:E.
  - apply existsb_eqb in E. rewrite IH. split; [tauto|].
    intros [H|[<-|[]]]; [exact H|]. apply IH, E.
  - rewrite in_app_iff, IH. simpl. tauto.
Qed.

Lemma firstSeen_NoDup ls : NoDup (firstSeen ls).
Proof.
  induction ls as [|x ls IH] using rev_ind; [constructor|].
  rewrite firstSeen_snoc.
  destruct (existsb (eqb x) (firstSeen ls)) eqn:E; [exact IH|].
  apply NoDup_app; [exact IH | repeat constructor; intros [] |].
  intros y Hy [<-|[]]. apply existsb_eqb in Hy. congruence.
Qed.

Lemma own_map (f : jsstring -> jsval) ks x :
  own (map (fun l => (l, f l)) ks) x = if existsb (eqb x) ks then Some (f x) else None.
Proof.
  induction ks as [|k ks IH]; [reflexivity|].
  simpl. destruct (eqb x k) eqn:E; [|exact IH].
  apply eqb_eq in E. subst. reflexivity.
Qed.

Lemma assign_map_in (f : jsstring -> jsval) ks x v :
  NoDup ks -> In x ks ->
  assign (map (fun l => (l, f l)) ks) x v =
  map (fun l => (l, if eqb l x then v else f l)) ks.
Proof.
  induction ks as [|k ks IH]; intros Hnd Hin; [contradiction|].
  inversion Hnd as [|? ? Hk Hnd']; subst. simpl.
  destruct (eqb x k) eqn:E.
  - apply eqb_eq in E. subst k. rewrite eqb_refl. f_equal.
    apply map_ext_in. intros l Hl.
    assert (eqb l x = false) as -> by (apply eqb_neq; intros ->; contradiction).
    reflexivity.
  - rewrite (eqb_sym k x), E. f_equal. apply IH; [exact Hnd'|].
    destruct Hin as [->|Hin]; [rewrite eqb_refl in E; discriminate | exact Hin].
Qed.

Lemma assign_map_notin (f : jsstring -> jsval) ks x v :
  ~ In x ks ->
  assign (map (fun l => (l, f l)) ks) x v = map (fun l => (l, f l)) ks ++ [(x, v)].
Proof.
  induction ks as [|k ks IH]; intros Hin; [reflexivity|].
  simpl. assert (eqb x k = false) as ->.
  { apply eqb_neq. intros ->. apply Hin. left. reflexivity. }
  f_equal. apply IH. intros H. apply Hin. right. exact H.
Qed.

Lemma not_inherited_not_proto x : inherited x = false -> eqb x proto = false.
Proof.
  intros H. apply eqb_neq. intros ->. vm_compute in H. discriminate.
Qed.

(** The tally of names none of which is inherited from [Object.prototype]:
    one property per distinct name, created in discovery order, holding the
    number of occurrences of the name. *)
Lemma tally_plain_names ls :
  Forall (fun l => inherited l = false) ls ->
  fst (fold_left tallyName ls ([], false)) =
  map (fun l => (l, VNum (countOf l ls))) (firstSeen ls).
Proof.
  induction ls as [|x ls IH] using rev_ind; intros Hplain; [reflexivity|].
  apply Forall_app in Hplain. destruct Hplain as [Hls Hx].
  inversion Hx as [|? ? Hx' _]; subst.
  rewrite fold_left_app. simpl. rewrite (IH Hls). clear IH.
  unfold set. rewrite (not_inherited_not_proto x Hx').
  unfold get. rewrite own_map, firstSeen_snoc.
  destruct (existsb (eqb x) (firstSeen ls)) eqn:E.
  - assert (Hin : In x ls) by (apply firstSeen_In, existsb_eqb, E).
    apply countOf_In in Hin. simpl orZeroPlusOne. unfold truthy_num.
    destruct (N.eqb_spec (countOf x ls) 0) as [E0|_]; [lia|]. simpl negb. cbv iota.
    rewrite assign_map_in; [|apply firstSeen_NoDup | apply existsb_eqb, E].
    apply map_ext. intros l. rewrite countOf_snoc.
    destruct (eqb l x) eqn:El; [apply eqb_eq in El; subst; reflexivity|].
    rewrite N.add_0_r. reflexivity.
  - assert (Hout : ~ In x (firstSeen ls)).
    { intros H. apply existsb_eqb in H. congruence. }
    rewrite Hx'. simpl orZeroPlusOne.
    rewrite assign_map_notin by exact Hout. rewrite map_app. simpl. f_equal.
    + apply map_ext_in. intros l Hl. rewrite countOf_snoc.
      assert (eqb l x = false) as ->; [|rewrite N.add_0_r; reflexivity].
      apply eqb_neq. intros ->. contradiction.
    + rewrite countOf_snoc, eqb_refl.
      assert (countOf x ls = 0) as ->; [|reflexivity].
      destruct (N.eq_dec (countOf x ls) 0) as [E0|Hne]; [exact E0|].
      exfalso. apply Hout, firstSeen_In, countOf_In. lia.
Qed.

Lemma partition_perm {A} (p : A -> bool) l :
  Permutation (filter p l ++ filter (fun a => negb (p a)) l) l.
Proof.
  induction l as [|x l IH]; [constructor|].
  simpl. destruct (p x); simpl.
  - apply perm_skip, IH.
  - apply Permutation_sym. eapply perm_trans.
    + apply perm_skip, Permutation_sym, IH.
    + apply Permutation_middle.
Qed.

Lemma propertyOrder_perm ks : Permutation (propertyOrder ks) ks.
Proof.
  unfold propertyOrder. eapply perm_trans; [|apply (partition_perm isArrayIndex)].
  apply Permutation_app_tail, Array_sort_perm.
Qed.

Lemma propertyOrder_In ks l : In l (propertyOrder ks) <-> In l ks.
Proof.
  split; apply Permutation_in;
    [apply propertyOrder_perm | apply Permutation_sym, propertyOrder_perm].
Qed.

(** The array indices come first, in ascending numeric order. *)
Lemma propertyOrder_indices ks :
  exists indices,
    propertyOrder ks = indices ++ filter (fun k => negb (isArrayIndex k)) ks /\
    Permutation indices (filter isArrayIndex ks) /\
    StronglySorted (fun a b => arrayIndex a <= arrayIndex b) indices.
Proof.
  exists (Array_sort compareIndex (filter isArrayIndex ks)).
  split; [reflexivity|]. split; [apply Array_sort_perm|].
  eapply StronglySorted_weaken;
    [|apply (Array_sort_sorted compareIndex (fun k => Z.of_N (arrayIndex k)))].
  - unfold rankLe. intros a b. lia.
  - intros a b _ _. unfold goesAfter, compareIndex.
    destruct (Z.ltb_spec 0 (Z.of_N (arrayIndex a) - Z.of_N (arrayIndex b)));
      destruct (Z.ltb_spec (Z.of_N (arrayIndex b)) (Z.of_N (arrayIndex a)));
      try reflexivity; lia.
Qed.

(** Without array indices among the names, the enumeration order is the
    creation order. *)
Lemma propertyOrder_plain ks :
  (forall k, In k ks -> isArrayIndex k = false) -> propertyOrder ks = ks.
Proof.
  intros H. unfold propertyOrder.
  assert (filter isArrayIndex ks = []) as ->.
  { induction ks as [|k ks IH]; [reflexivity|]. simpl.
    rewrite (H k) by (left; reflexivity). apply IH. intros; apply H; right; assumption. }
  simpl. induction ks as [|k ks IH]; [reflexivity|]. simpl.
  rewrite (H k) by (left; reflexivity). simpl. f_equal.
  apply IH. intros; apply H; right; assumption.
Qed.

(** The histogram of records whose language names are not inherited from
    [Object.prototype]: the names in enumeration order, each with its
    count, stably sorted by descending count. *)
Lemma processedData_plain rs :
  Forall (fun l => inherited l = false) (languagesOf rs) ->
  processedData (fst (tally rs)) =
  Array_sort byValueDesc
    (map (entryFor (languagesOf rs)) (propertyOrder (firstSeen (languagesOf rs)))).
Proof.
  intros Hplain. unfold processedData, tally.
  rewrite fold_tally_names, (tally_plain_names _ Hplain).
  unfold Object_keys. rewrite map_map. simpl. rewrite map_id. f_equal.
  apply map_ext_in. intros l Hl. apply (proj1 (propertyOrder_In _ _)) in Hl.
  unfold entryOf, entryFor, get. rewrite own_map.
  apply existsb_eqb in Hl. rewrite Hl. reflexivity.
Qed.

Lemma byValueDesc_ordersBy es :
  (forall e, In e es -> exists n, value e = VNum n) -> ordersBy byValueDesc valueRank es.
Proof.
  intros Hnum a b Ha Hb. destruct (Hnum a Ha) as [na Ea], (Hnum b Hb) as [nb Eb].
  unfold goesAfter, byValueDesc, valueRank, shown. rewrite Ea, Eb. simpl.
  destruct (Z.ltb_spec 0 (Z.of_N nb - Z.of_N na));
    destruct (Z.ltb_spec (- Z.of_N nb) (- Z.of_N na)); try reflexivity; lia.
Qed.

Lemma withCount_hasRank k es :
  filter (withCount k) es = filter (hasRank valueRank (- Z.of_N k)) es.
Proof.
  apply filter_ext. intros e. unfold withCount, hasRank, valueRank.
  destruct (N.eqb_spec (shown e) k), (Z.eqb_spec (- Z.of_N (shown e)) (- Z.of_N k));
    try reflexivity; lia.
Qed.

Lemma total_perm l l' : Permutation l l' -> total l = total l'.
Proof. induction 1; simpl; lia. Qed.

Lemma total_indicator ks x :
  NoDup ks -> In x ks -> total (map (fun k => if eqb k x then 1 else 0) ks) = 1.
Proof.
  induction ks as [|k ks IH]; intros Hnd Hin; [contradiction|].
  inversion Hnd as [|? ? Hk Hnd']; subst. simpl.
  destruct (eqb k x) eqn:E.
  - apply eqb_eq in E. subst k.
    assert (total (map (fun k => if eqb k x then 1 else 0) ks) = 0) as ->; [|reflexivity].
    clear IH Hin Hnd Hnd'. induction ks as [|k ks IH]; [reflexivity|]. simpl.
    assert (eqb k x = false) as ->.
    { apply eqb_neq. intros ->. apply Hk. left. reflexivity. }
    apply IH. intros H. apply Hk. right. exact H.
  - rewrite IH; [reflexivity | exact Hnd'|].
    destruct Hin as [->|Hin]; [rewrite eqb_refl in E; discriminate | exact Hin].
Qed.

(** Over distinct names that cover the list, the counts add up to the
    length of the list. *)
Lemma counts_add_up ks ls :
  NoDup ks -> (forall x, In x ls -> In x ks) ->
  total (map (fun k => countOf k ls) ks) = len ls.
Proof.
  intros Hnd. induction ls as [|x ls IH]; intros Hcover.
  - clear Hnd Hcover. induction ks as [|k ks IHk]; [reflexivity|].
    cbn [map total fold_right]. change (countOf k []) with 0.
    rewrite N.add_0_l. exact IHk.
  - assert (Hsplit : forall ks', total (map (fun k => countOf k (x :: ls)) ks') =
                                 total (map (fun k => if eqb k x then 1 else 0) ks')
                                 + total (map (fun k => countOf k ls) ks')).
    { induction ks' as [|k ks' IHk]; [reflexivity|]. simpl. rewrite IHk.
      unfold countOf at 1. simpl. destruct (eqb k x); unfold countOf, len; simpl length; lia. }
    rewrite Hsplit, total_indicator, IH.
    + unfold len. simpl length. lia.
    + intros y Hy. apply Hcover. right. exact Hy.
    + exact Hnd.
    + apply Hcover. left. reflexivity.
Qed.

(** C1 (as amended).  When no language name is a property name inherited
    from [Object.prototype], the histogram has exactly one entry per
    distinct non-empty language; the value of an entry is the number of
    records whose [language] is its name; the values add up to the number
    of records with a non-empty language; the entries are in descending
    order of value; and entries of equal value stand in the enumeration
    order of the names, which lists the names that are array indices first,
    in ascending numeric order, and then the others in discovery order, so
    that it is the discovery order when no name is an array index. *)
Theorem language_histogram (rs : list RepositoryRecord)
  (Hplain : forall l, In l (languagesOf rs) -> inherited l = false) :
  let histogram := processedData (fst (tally rs)) in
  NoDup (map lc_name histogram) /\
  (forall l, In l (map lc_name histogram) <->
             l <> [] /\ exists r, In r rs /\ language r = Some l) /\
  (forall e, In e histogram ->
             value e = VNum (recordsWith (lc_name e) rs) /\ 1 <= recordsWith (lc_name e) rs) /\
  total (map shown histogram) = len (filter speaks rs) /\
  StronglySorted fewerShown histogram /\
  (forall k, map lc_name (filter (withCount k) histogram) =
             filter (fun l => recordsWith l rs =? k)
                    (propertyOrder (firstSeen (languagesOf rs)))) /\
  ((forall l, In l (languagesOf rs) -> isArrayIndex l = false) ->
   propertyOrder (firstSeen (languagesOf rs)) = firstSeen (languagesOf rs)).
Proof.
  cbv zeta. rewrite processedData_plain by (apply Forall_forall, Hplain).
  set (ls := languagesOf rs). set (order := propertyOrder (firstSeen ls)).
  set (es := map (entryFor ls) order).
  assert (Hperm : Permutation (Array_sort byValueDesc es) es) by apply Array_sort_perm.
  assert (Horder : forall l, In l order <-> In l ls).
  { intros l. unfold order. rewrite propertyOrder_In. apply firstSeen_In. }
  assert (Hnames : map lc_name es = order).
  { unfold es. rewrite map_map. simpl. apply map_id. }
  assert (Hes : forall e, In e es -> exists l, In l ls /\ e = entryFor ls l).
  { intros e He. unfold es in He. apply in_map_iff in He. destruct He as [l [<- Hl]].
    exists l. split; [apply Horder, Hl | reflexivity]. }
  assert (Hord : ordersBy byValueDesc valueRank es).
  { apply byValueDesc_ordersBy. intros e He. destruct (Hes e He) as [l [_ ->]].
    eexists. reflexivity. }
  split; [|split; [|split; [|split; [|split; [|split]]]]].
  - apply (Permutation_NoDup (l := order)).
    + rewrite <- Hnames. apply Permutation_sym, Permutation_map, Hperm.
    + unfold order. apply (Permutation_NoDup (l := firstSeen ls));
        [apply Permutation_sym, propertyOrder_perm | apply firstSeen_NoDup].
  - intros l. rewrite <- (languagesOf_In rs l). fold ls. rewrite <- Horder, <- Hnames.
    split; apply Permutation_in;
      [apply Permutation_map, Hperm | apply Permutation_sym, Permutation_map, Hperm].
  - intros e He. apply (Permutation_in _ Hperm) in He.
    destruct (Hes e He) as [l [Hl ->]]. simpl.
    rewrite <- (countOf_recordsWith rs l) by (eapply languagesOf_truthy, Hl).
    split; [reflexivity | apply countOf_In, Hl].
  - rewrite (total_perm _ _ (Permutation_map shown Hperm)).
    unfold es, order. rewrite map_map.
    change (fun x => shown (entryFor ls x)) with (fun l => countOf l ls).
    rewrite (total_perm _ _ (Permutation_map (fun l => countOf l ls)
                               (propertyOrder_perm (firstSeen ls)))).
    rewrite counts_add_up;
      [apply languagesOf_length | apply firstSeen_NoDup | intros x; apply firstSeen_In].
  - eapply StronglySorted_weaken;
      [|apply (Array_sort_sorted byValueDesc valueRank), Hord].
    unfold rankLe, valueRank, fewerShown. intros a b. lia.
  - intros k. rewrite withCount_hasRank, (Array_sort_stable byValueDesc valueRank) by exact Hord.
    rewrite <- withCount_hasRank. unfold es.
    rewrite filter_map_commute, map_map. simpl. rewrite map_id.
    apply filter_ext_in. intros l Hl. unfold withCount, shown. simpl. unfold ls.
    rewrite (countOf_recordsWith rs l); [reflexivity|].
    eapply languagesOf_truthy, Horder, Hl.
  - intros Hidx. apply propertyOrder_plain. intros k Hk. apply Hidx, firstSeen_In, Hk.
Qed.

(** ** The claims at sample inputs *)

(** C1 as stated fails in three ways.  With the languages "Zig" and "7",
    each seen once, "7" comes first in the histogram although "Zig" was
    discovered first.  With the languages "Go" and the empty string, two
    records have a non-null language but the values add up to 1 and the
    empty string has no entry.  With the language "constructor", the value
    of the entry is not a count. *)
Lemma language_histogram_counterexample :
  (map lc_name (processedData (fst (tally sampleIndexNamed))) = [lit "7"; lit "Zig"] /\
   map value (processedData (fst (tally sampleIndexNamed))) = [VNum 1; VNum 1] /\
   firstSeen (nonNullLanguages sampleIndexNamed) = [lit "Zig"; lit "7"] /\
   ~ histogramAsStated sampleIndexNamed (processedData (fst (tally sampleIndexNamed)))) /\
  (map lc_name (processedData (fst (tally sampleBlankLanguage))) = [lit "Go"] /\
   total (map shown (processedData (fst (tally sampleBlankLanguage)))) = 1 /\
   len (filter nonNull sampleBlankLanguage) = 2 /\
   ~ histogramAsStated sampleBlankLanguage
       (processedData (fst (tally sampleBlankLanguage)))) /\
  (processedData (fst (tally sampleInheritedName)) =
     [{| lc_name := lit "constructor"; value := VOther |}] /\
   ~ histogramAsStated sampleInheritedName
       (processedData (fst (tally sampleInheritedName)))).
Proof.
  split; [|split]; repeat (split; [reflexivity|]).
  - intros [_ [_ [_ [_ [_ H]]]]]. specialize (H 1). vm_compute in H. discriminate.
  - intros [_ [_ [_ [H _]]]]. vm_compute in H. discriminate.
  - intros [_ [_ [H _]]].
    specialize (H {| lc_name := lit "constructor"; value := VOther |}
                  (or_introl eq_refl)).
    discriminate.
Qed.

(** The histogram of the end-to-end example: Go twice, Rust once. *)
Lemma language_histogram_witness :
  (forall l, In l (languagesOf sampleRecords) -> inherited l = false) /\
  total (map shown (processedData (fst (tally sampleRecords)))) = 3 /\
  map lc_name (processedData (fst (tally sampleRecords))) = [lit "Go"; lit "Rust"].
Proof.
  assert (H : forall l, In l (languagesOf sampleRecords) -> inherited l = false).
  { intros l Hl. vm_compute in Hl.
    destruct Hl as [<-|[<-|[<-|[]]]]; reflexivity. }
  split; [exact H|].
  split; [exact (proj1 (proj2 (proj2 (proj2 (language_histogram sampleRecords H)))))|].
  reflexivity.
Defined.


(** Three full pages and a fourth with 99 items: four requests, 399 items. *)
Lemma paginator_order_witness :
  exists allRepos,
    paginate sampleFourPages sampleUser sampleHeaders =
      (Returned allRepos, map (pageRequest sampleUser sampleHeaders) [1; 2; 3; 4]) /\
    len allRepos = 399.
Proof.
  apply (proj2 (paginator_order_and_stop sampleFourPages sampleUser sampleHeaders)).
  - intros p Hp. assert (p = 1 \/ p = 2 \/ p = 3) as [-> | [-> | ->]] by lia;
      split; reflexivity.
  - reflexivity.
  - reflexivity.
Defined.

(** C5 as stated fails on the cap: a source that sends 101 items on every
    page is read for 10 pages, and 1010 items are returned. *)
Lemma paginator_cap_counterexample :
  exists allRepos,
    paginate sampleOversized sampleUser sampleHeaders =
      (Returned allRepos, map (pageRequest sampleUser sampleHeaders) (pagesFrom 1 10)) /\
    len allRepos = 1010 /\
    perPage * maxPages < len allRepos.
Proof. eexists. split; [vm_compute; reflexivity|]. split; reflexivity. Qed.

(** A source of full pages is read for ten pages and 1000 items; a source
    that respects [per_page] never yields more. *)
Lemma paginator_bound_witness :
  (exists allRepos,
      paginate sampleAlwaysFull sampleUser sampleHeaders =
        (Returned allRepos, map (pageRequest sampleUser sampleHeaders) (pagesFrom 1 10)) /\
      len allRepos = 1000) /\
  (forall allRepos,
      fst (paginate sampleFourPages sampleUser sampleHeaders) = Returned allRepos ->
      len allRepos <= 1000).
Proof.
  split.
  - apply (proj1 (proj2 (paginator_bound sampleAlwaysFull sampleUser sampleHeaders))).
    intros p. split; reflexivity.
  - apply (proj2 (proj2 (paginator_bound sampleFourPages sampleUser sampleHeaders))).
    intros p. unfold pageItems, pageResponse, sampleFourPages, pagesOf. simpl.
    destruct (p <=? 3); vm_compute; discriminate.
Defined.

(** A profile lookup answered with 500 gives the unclassified message. *)
Lemma error_classification_witness :
  error (ui (fetchData sampleBroken (Some sampleUser) initialState)) =
    Some (lit "GitHub API Error: 500 Internal Server Error") /\
  contains (message (classify 500 (lit "Internal Server Error"))) (toString 500).
Proof.
  destruct (error_classification sampleBroken (Some sampleUser) initialState)
    as [_ [Hother Hrun]].
  split.
  - apply (Hrun (GetUser sampleUser sampleHeaders)).
    + left. reflexivity.
    + reflexivity.
  - apply (Hother 500 (lit "Internal Server Error")); discriminate.
Defined.

(** A 403 on page 2 after a full page 1: the rate-limit message, and
    nothing of page 1 in the state. *)
Lemma page_failure_witness :
  let w := fetchData sampleRateLimited (Some sampleUser) initialState in
  (exists before, issued w = before ++ [GetRepos sampleUser 100 2 sampleHeaders]) /\
  error (ui w) = Some (message RateLimited) /\
  loading (ui w) = false /\
  data (ui w) = None /\
  repoCount (ui w) = 0 /\
  topRepos (ui w) = [] /\
  repoStats (ui w) = repoStats initialState.
Proof.
  apply (page_failure_aborts sampleRateLimited (Some sampleUser) initialState
           sampleUser 100 2 sampleHeaders).
  - right. right. left. reflexivity.
  - reflexivity.
Defined.




(** Two records, one without language and one with the empty string: no
    language data. *)
Lemma empty_language_witness :
  tally sampleSilent = ([], false) /\
  error (ui (fetchData (onePage sampleSilent) (Some sampleUser) initialState)) =
    Some (message NoLanguageData) /\
  data (ui (fetchData (onePage sampleSilent) (Some sampleUser) initialState)) = None.
Proof.
  apply (empty_language_is_no_language (onePage sampleSilent) (Some sampleUser)
           initialState sampleSilent).
  - discriminate.
  - reflexivity.
  - reflexivity.
  - discriminate.
  - intros r [<-|[<-|[]]]; [left | right]; reflexivity.
Defined.

(** * Further properties of the component *)

(** ** Validation and the requests of a run *)

Lemma trimStart_blank s : trimStart s = [] <-> forallb is_whitespace s = true.
Proof.
  induction s as [|c s IH]; simpl; [tauto|].
  destruct (is_whitespace c); simpl; [exact IH|]. split; discriminate.
Qed.

Lemma trimStart_head s c t : trimStart s = c :: t -> is_whitespace c = false.
Proof.
  induction s as [|d s IH]; simpl; [discriminate|].
  destruct (is_whitespace d) eqn:E; [exact IH|]. intros H. congruence.
Qed.

Lemma forallb_rev {A} (f : A -> bool) l : forallb f (rev l) = forallb f l.
Proof.
  induction l as [|x l IH]; [reflexivity|].
  simpl. rewrite forallb_app, IH. simpl. rewrite andb_true_r. apply andb_comm.
Qed.

(** [trim] leaves nothing exactly when every code unit is white space. *)
Lemma trim_blank_iff s : trim s = [] <-> forallb is_whitespace s = true.
Proof.
  unfold trim, trimEnd. split.
  - intros H. apply (f_equal (@rev N)) in H. rewrite rev_involutive in H. simpl in H.
    apply trimStart_blank in H. rewrite forallb_rev in H.
    destruct (trimStart s) as [|c t] eqn:E; [apply trimStart_blank, E|].
    apply trimStart_head in E. simpl in H. rewrite E in H. discriminate.
  - intros H. apply trimStart_blank in H. rewrite H. reflexivity.
Qed.

Lemma message_truthy e : truthy (message e) = true.
Proof. destruct e; reflexivity. Qed.

(** The first code unit of a message tells the fixed messages apart from
    each other and from the unclassified ones. *)
Lemma message_head e :
  hd 0 (message e) =
  match e with
  | ValidationError => 80 | NotFound => 85 | RateLimited => 65 | Unauthorized => 73
  | Unclassified _ _ => 71 | EmptyResult => 78 | NoLanguageData => 82
  end.
Proof. destruct e; reflexivity. Qed.

Lemma paginate_thrown api user headers msg :
  fst (paginate api user headers) = Thrown msg ->
  exists code text, msg = message (classify code text).
Proof.
  destruct (paginate_shape api user headers) as [n [out [Hrun [_ [_ Hend]]]]].
  rewrite Hrun. simpl. intros ->.
  destruct Hend as [[_ Hout]|[_ [_ Hout]]]; [|discriminate].
  injection Hout as ->. eexists. eexists. reflexivity.
Qed.

Lemma classify_not_validation code text : classify code text <> ValidationError.
Proof.
  unfold classify.
  destruct (code =? 404); [discriminate|].
  destruct (code =? 403); [discriminate|].
  destruct (code =? 401); discriminate.
Qed.

Lemma message_not_validation e :
  e <> ValidationError -> message e <> message ValidationError.
Proof.
  intros Hne H. apply (f_equal (hd 0)) in H. rewrite !message_head in H.
  destruct e; try discriminate. contradiction.
Qed.

(** X1.  The guard at the head of [fetchData] turns away exactly the user
    names made of white space only (the empty one among them): such a call
    sets the validation message and issues no request; any other call
    starts with the profile lookup and never ends on the validation
    message. *)
Theorem validation_rejects_blank_names (api : Api) (arg : option jsstring) (st : AppState) :
  (forallb is_whitespace (userOf arg st) = true ->
   fetchData api arg st = mkWorld (setError (Some (message ValidationError)) st) [])
  /\
  (forallb is_whitespace (userOf arg st) = false ->
   (exists rest, issued (fetchData api arg st) =
                 GetUser (userOf arg st) (requestHeaders (token st)) :: rest) /\
   error (ui (fetchData api arg st)) <> Some (message ValidationError)).
Proof.
  split.
  - intros Hblank. apply trim_blank_iff, trim_blank in Hblank.
    rewrite fetchData_run. cbv zeta. rewrite Hblank. reflexivity.
  - intros Hname.
    assert (Hvalid : negb (truthy (trim (userOf arg st))) = false).
    { apply trim_not_blank. intros H. apply trim_blank_iff in H. congruence. }
    split.
    + rewrite fetchData_issued, Hvalid. destruct (negb (ok _)); eexists; reflexivity.
    + rewrite fetchData_run. cbv zeta. rewrite Hvalid.
      destruct (negb (ok _)).
      { simpl. intros H. injection H as H.
        revert H. apply message_not_validation, classify_not_validation. }
      destruct (fst (paginate _ _ _)) as [allRepos|msg] eqn:Hp.
      * destruct (len allRepos =? 0); [simpl; discriminate|].
        destruct (negb (snd (tally allRepos))); simpl; discriminate.
      * apply paginate_thrown in Hp. destruct Hp as [code [text ->]].
        simpl. intros H. injection H as H.
        revert H. apply message_not_validation, classify_not_validation.
Qed.

Lemma NoDup_map_injective {A B} (f : A -> B) l :
  (forall a b, f a = f b -> a = b) -> NoDup l -> NoDup (map f l).
Proof.
  intros Hinj Hnd. induction Hnd as [|x l Hx Hnd IH]; simpl; constructor; [|exact IH].
  intros H. apply in_map_iff in H. destruct H as [y [Hy Hin]].
  apply Hinj in Hy. subst. contradiction.
Qed.

Lemma pagesFrom_NoDup first n : NoDup (pagesFrom first n).
Proof.
  unfold pagesFrom. apply NoDup_map_injective; [intros a b H; lia | apply seq_NoDup].
Qed.

(** X2.  Every request of a run is the profile lookup or the request for
    one of the pages 1 to 10; all of them carry the user name as it was
    passed (not trimmed), [per_page=100] and the same headers, where
    [Authorization] is present exactly when the token is not empty; and no
    request is issued twice. *)
Theorem requests_of_a_run (api : Api) (arg : option jsstring) (st : AppState)
  (rq : Request) (Hissued : In rq (issued (fetchData api arg st))) :
  let user := userOf arg st in
  let headers := requestHeaders (token st) in
  (rq = GetUser user headers \/
   exists page, 1 <= page <= maxPages /\ rq = GetRepos user perPage page headers) /\
  Accept headers = lit "application/vnd.github+json" /\
  (token st = [] -> Authorization headers = None) /\
  (token st <> [] -> Authorization headers = Some (lit "Bearer " ++ token st)) /\
  NoDup (issued (fetchData api arg st)).
Proof.
  cbv zeta.
  destruct (paginate_shape api (userOf arg st) (requestHeaders (token st)))
    as [n [out [Hrun [Hn _]]]].
  assert (Hshape : forall r, In r (issued (fetchData api arg st)) ->
            r = GetUser (userOf arg st) (requestHeaders (token st)) \/
            exists page, In page (pagesFrom 1 n) /\
              r = GetRepos (userOf arg st) perPage page (requestHeaders (token st))).
  { intros r. rewrite fetchData_issued, Hrun. cbn [snd].
    destruct (negb (truthy _)); [intros []|].
    destruct (negb (ok _)); intros [<-|H]; try (left; reflexivity); [destruct H|].
    right. apply in_map_iff in H. destruct H as [p [<- Hp]]. exists p. split; [exact Hp|reflexivity]. }
  split; [|split; [reflexivity|split; [|split]]].
  - destruct (Hshape rq Hissued) as [H|[p [Hp H]]]; [left; exact H|].
    right. exists p. split; [|exact H]. apply pagesFrom_In in Hp. unfold maxPages. lia.
  - intros ->. reflexivity.
  - intros Hne. unfold requestHeaders. simpl. destruct (token st); [contradiction|reflexivity].
  - rewrite fetchData_issued, Hrun. cbn [snd].
    destruct (negb (truthy _)); [constructor|].
    destruct (negb (ok _)); [repeat constructor; intros []|].
    constructor.
    + intros H. apply in_map_iff in H. destruct H as [p [Hp _]]. discriminate.
    + apply NoDup_map_injective; [|apply pagesFrom_NoDup].
      intros a b H. unfold pageRequest in H. congruence.
Qed.

(** ** Running again *)

Lemma fetchData_keeps_inputs api arg st :
  username (ui (fetchData api arg st)) = username st /\
  token (ui (fetchData api arg st)) = token st.
Proof.
  rewrite fetchData_run. cbv zeta.
  destruct (negb (truthy _)); [split; reflexivity|].
  destruct (negb (ok _)); [split; reflexivity|].
  destruct (fst (paginate _ _ _)) as [allRepos|msg]; [|split; reflexivity].
  destruct (len allRepos =? 0); [split; reflexivity|].
  destruct (negb (snd (tally allRepos))); split; reflexivity.
Qed.

(** X3.  A call of [fetchData] made again from the state the first call
    settled in, with the same argument and against the same answers, issues
    the same requests and settles in the same state: whatever a run leaves
    behind, the next run of the same search overwrites or reproduces. *)
Theorem rerun_settles_in_the_same_state (api : Api) (arg : option jsstring) (st : AppState) :
  fetchData api arg (ui (fetchData api arg st)) = fetchData api arg st.
Proof.
  destruct (fetchData_keeps_inputs api arg st) as [Hu Ht].
  rewrite (fetchData_run api arg (ui (fetchData api arg st))). cbv zeta.
  assert (Huser : userOf arg (ui (fetchData api arg st)) = userOf arg st).
  { unfold userOf. destruct arg; [reflexivity | exact Hu]. }
  rewrite Huser, Ht. clear Hu Ht Huser.
  rewrite (fetchData_run api arg st). cbv zeta.
  destruct (negb (truthy _)); [reflexivity|].
  destruct (negb (ok _)); [reflexivity|].
  destruct (fst (paginate _ _ _)) as [allRepos|msg]; [|reflexivity].
  destruct (len allRepos =? 0); [reflexivity|].
  destruct (negb (snd (tally allRepos))); reflexivity.
Qed.

Lemma errorShown_failed e st : errorShown (failed e st) = truthy e.
Proof. reflexivity. Qed.

(** X4.  After a run that passed validation the spinner is off and
    exactly one of the error banner and the results section is rendered;
    after a run that was turned away by validation the error banner is
    rendered. *)
Theorem banner_or_results (api : Api) (arg : option jsstring) (st : AppState) :
  let w := fetchData api arg st in
  (trim (userOf arg st) <> [] ->
   loading (ui w) = false /\ errorShown (ui w) = negb (resultsShown (ui w)))
  /\
  (trim (userOf arg st) = [] -> errorShown (ui w) = true).
Proof.
  cbv zeta. rewrite fetchData_run. cbv zeta. split.
  - intros Hvalid. apply trim_not_blank in Hvalid. rewrite Hvalid.
    destruct (negb (ok _)).
    { split; [reflexivity|]. cbn [ui]. rewrite errorShown_failed, message_truthy. reflexivity. }
    destruct (fst (paginate _ _ _)) as [allRepos|msg] eqn:Hp.
    + destruct (len allRepos =? 0); [split; reflexivity|].
      destruct (negb (snd (tally allRepos))); split; reflexivity.
    + apply paginate_thrown in Hp. destruct Hp as [code [text ->]].
      split; [reflexivity|]. cbn [ui]. rewrite errorShown_failed, message_truthy. reflexivity.
  - intros Hblank. apply trim_blank in Hblank. rewrite Hblank. reflexivity.
Qed.

(** ** The paginator against a source that pages a list *)

Lemma firstn_plus {A} (a b : nat) (l : list A) :
  firstn (a + b) l = firstn a l ++ firstn b (skipn a l).
Proof.
  revert l. induction a as [|a IH]; intros l; [reflexivity|].
  destruct l as [|x l]; simpl; [destruct b; reflexivity|]. rewrite IH. reflexivity.
Qed.

Lemma len_slice (all : list RepositoryRecord) p :
  1 <= p ->
  len (slice all p) = N.min perPage (len all - perPage * (p - 1)).
Proof.
  intros Hp. unfold slice, len, perPage. rewrite length_firstn, length_skipn. lia.
Qed.

Lemma concat_slices (all : list RepositoryRecord) n :
  concat (map (slice all) (pagesFrom 1 n)) = firstn (N.to_nat perPage * n) all.
Proof.
  induction n as [|n IH]; [rewrite Nat.mul_0_r; reflexivity|].
  rewrite pagesFrom_snoc, map_app, concat_app, IH. cbn [map concat]. rewrite app_nil_r.
  replace (N.to_nat perPage * S n)%nat with (N.to_nat perPage * n + N.to_nat perPage)%nat
    by lia.
  rewrite firstn_plus. f_equal. unfold slice. f_equal. f_equal. unfold perPage. lia.
Qed.

(** X5.  Against a source that answers page [p] with the [p]-th run of
    100 items of a list, the paginator returns the first 1000 items of the
    list, hence the whole list when it has fewer than 1000, and it issues
    min(10, floor(length / 100) + 1) requests: a list whose length is a
    multiple of 100 below 1000 costs one more request, answered with an
    empty page. *)
Theorem paginate_paged_list (api : Api) (user : jsstring) (headers : Headers)
  (all : list RepositoryRecord)
  (Hserves : forall p, 1 <= p ->
     ok (pageResponse api user headers p) = true /\
     pageItems api user headers p = slice all p) :
  paginate api user headers =
    (Returned (firstn (N.to_nat (perPage * maxPages)) all),
     map (pageRequest user headers)
         (pagesFrom 1 (N.to_nat (N.min maxPages (len all / perPage + 1))))).
Proof.
  destruct (paginate_shape api user headers) as [n [out [Hrun [Hn [Hfull Hend]]]]].
  rewrite Hrun.
  assert (Hlow : perPage * (N.of_nat n - 1) <= len all).
  { destruct (N.eq_dec (N.of_nat n) 1) as [E|Hne]; [rewrite E; simpl; lia|].
    destruct (Hfull (N.of_nat n - 1)) as [_ Hlen]; [lia|].
    rewrite (proj2 (Hserves (N.of_nat n - 1) ltac:(lia))), len_slice in Hlen by lia.
    unfold perPage in *. lia. }
  destruct Hend as [[Hbad _]|[_ [Hstop ->]]].
  { rewrite (proj1 (Hserves (N.of_nat n) ltac:(lia))) in Hbad. discriminate. }
  assert (Hitems : map (pageItems api user headers) (pagesFrom 1 n) =
                   map (slice all) (pagesFrom 1 n)).
  { apply map_ext_in. intros p Hp. apply pagesFrom_In in Hp. apply Hserves. lia. }
  rewrite Hitems, concat_slices.
  rewrite (proj2 (Hserves (N.of_nat n) ltac:(lia))), len_slice in Hstop by lia.
  assert (Hcases : (len all < perPage * N.of_nat n /\ len all / perPage = N.of_nat n - 1)
                   \/ (n = 10%nat /\ perPage * maxPages <= len all)).
  { destruct (N.lt_ge_cases (len all) (perPage * N.of_nat n)) as [Hlt|Hge].
    - left. split; [exact Hlt|]. symmetry.
      apply (N.div_unique (len all) perPage (N.of_nat n - 1)
                          (len all - perPage * (N.of_nat n - 1)));
        unfold perPage in *; lia.
    - right. destruct Hstop as [Hshort|Hten]; unfold perPage, maxPages in *; lia. }
  destruct Hcases as [[Hlt Hdiv]|[-> Hge]].
  - rewrite Hdiv. replace (N.to_nat (N.min maxPages (N.of_nat n - 1 + 1))) with n
      by (unfold maxPages; lia).
    f_equal. f_equal.
    rewrite !firstn_all2; [reflexivity | |]; unfold len, perPage, maxPages in *; lia.
  - assert (Hq : maxPages <= len all / perPage).
    { apply N.div_le_lower_bound; [discriminate | exact Hge]. }
    replace (N.to_nat (N.min maxPages (len all / perPage + 1))) with 10%nat
      by (unfold maxPages in *; lia).
    reflexivity.
Qed.

(** ** The dashboard and the order of the records *)

Lemma plain_entries_numeric ls order e :
  In e (map (entryFor ls) order) -> exists n, value e = VNum n.
Proof.
  intros H. apply in_map_iff in H. destruct H as [l [<- _]]. eexists. reflexivity.
Qed.

Lemma processedData_sorted rs :
  (forall l, In l (languagesOf rs) -> inherited l = false) ->
  StronglySorted fewerShown (processedData (fst (tally rs))).
Proof.
  intros Hplain. rewrite processedData_plain by (apply Forall_forall, Hplain).
  eapply StronglySorted_weaken;
    [|apply (Array_sort_sorted byValueDesc valueRank), byValueDesc_ordersBy;
      intros e; apply plain_entries_numeric].
  unfold rankLe, valueRank, fewerShown. intros a b. lia.
Qed.

Lemma processedData_entries rs :
  (forall l, In l (languagesOf rs) -> inherited l = false) ->
  Permutation (processedData (fst (tally rs)))
              (map (entryFor (languagesOf rs)) (firstSeen (languagesOf rs))).
Proof.
  intros Hplain. rewrite processedData_plain by (apply Forall_forall, Hplain).
  eapply perm_trans; [apply Array_sort_perm|].
  apply Permutation_map, propertyOrder_perm.
Qed.





(** X7.  When some record bears a language, the card "Top Language"
    shows a language of the records that no other language outnumbers, and
    never the placeholder; the card "Diversity Score" shows the number of
    distinct non-empty languages, which is at least 1 and at most the
    number of language-bearing records. *)
Theorem summary_cards (rs : list RepositoryRecord)
  (Hplain : forall l, In l (languagesOf rs) -> inherited l = false)
  (Hsome : existsb speaks rs = true) :
  let histogram := processedData (fst (tally rs)) in
  In (topLanguageCard histogram) (languagesOf rs) /\
  (forall l, l <> [] -> recordsWith l rs <= recordsWith (topLanguageCard histogram) rs) /\
  diversityScore histogram = len (firstSeen (languagesOf rs)) /\
  1 <= diversityScore histogram <= len (filter speaks rs).
Proof.
  cbv zeta.
  pose proof (processedData_entries rs Hplain) as Hperm.
  pose proof (processedData_sorted rs Hplain) as Hsorted.
  set (ls := languagesOf rs) in *.
  assert (Hlen : diversityScore (processedData (fst (tally rs))) = len (firstSeen ls)).
  { unfold diversityScore, len. rewrite (Permutation_length Hperm), length_map. reflexivity. }
  assert (Hne : exists r, In r rs /\ speaks r = true) by (apply existsb_exists, Hsome).
  destruct Hne as [r [Hr Hs]].
  assert (Hl0 : exists l0, In l0 ls).
  { unfold speaks in Hs. destruct (language r) as [l|] eqn:El; [|discriminate].
    exists l. apply languagesOf_In. split; [destruct l; [discriminate|congruence]|].
    exists r. split; assumption. }
  destruct (processedData (fst (tally rs))) as [|e rest] eqn:Hd.
  { destruct Hl0 as [l0 Hl0]. apply firstSeen_In in Hl0.
    apply Permutation_nil in Hperm. destruct (firstSeen ls); [contradiction|discriminate]. }
  assert (He : exists l, In l ls /\ e = entryFor ls l).
  { assert (In e (map (entryFor ls) (firstSeen ls))) as H.
    { eapply Permutation_in; [exact Hperm | left; reflexivity]. }
    apply in_map_iff in H. destruct H as [l [<- Hl]]. exists l.
    split; [apply firstSeen_In, Hl | reflexivity]. }
  destruct He as [top [Htop ->]].
  assert (Htruthy : truthy top = true).
  { apply (languagesOf_truthy rs) in Htop. destruct top; [contradiction|reflexivity]. }
  simpl topLanguageCard. rewrite Htruthy.
  split; [exact Htop|]. split; [|split; [exact Hlen|]].
  - intros l Hl. rewrite <- !(countOf_recordsWith rs) by
      (try exact Hl; eapply languagesOf_truthy, Htop). fold ls.
    destruct (in_dec (list_eq_dec N.eq_dec) l ls) as [Hin|Hout].
    + assert (In (entryFor ls l) (entryFor ls top :: rest)) as H.
      { eapply Permutation_in; [apply Permutation_sym, Hperm|].
        apply in_map, firstSeen_In, Hin. }
      destruct H as [H|H]; [unfold entryFor in H; injection H as _ H; lia|].
      inversion Hsorted as [|? ? _ Hall]; subst. rewrite Forall_forall in Hall.
      apply (Hall _ H).
    + assert (countOf l ls = 0) as ->; [|lia].
      destruct (N.eq_dec (countOf l ls) 0) as [E|E]; [exact E|].
      exfalso. apply Hout, countOf_In. lia.
  - rewrite Hlen. split.
    + destruct Hl0 as [l0 Hl0]. apply firstSeen_In in Hl0.
      destruct (firstSeen ls); [contradiction|]. unfold len. simpl length. lia.
    + rewrite <- languagesOf_length. fold ls. unfold len.
      assert (length (firstSeen ls) <= length ls)%nat; [|lia].
      apply NoDup_incl_length; [apply firstSeen_NoDup|].
      intros x Hx. apply firstSeen_In, Hx.
Qed.

(** ** Chart colours *)

Lemma COLORS_NoDup : NoDup COLORS.
Proof.
  repeat (constructor; [vm_compute; intuition discriminate|]). constructor.
Qed.

(** X8.  Every chart cell gets a colour, whatever its index, and two
    cells get the same colour exactly when their indices differ by a
    multiple of 8: the palette is cycled, and neighbours never share a
    colour. *)
Theorem chart_colours (i j : N) :
  (exists c, cellFill i = Some c) /\
  (cellFill i = cellFill j <-> i mod 8 = j mod 8).
Proof.
  unfold cellFill. change (len COLORS) with 8.
  assert (Hi : (N.to_nat (i mod 8) < length COLORS)%nat).
  { change (length COLORS) with 8%nat. pose proof (N.mod_upper_bound i 8). lia. }
  split.
  - destruct (nth_error COLORS (N.to_nat (i mod 8))) as [c|] eqn:E; [exists c; reflexivity|].
    apply nth_error_None in E. lia.
  - split.
    + intros H. apply (proj1 (NoDup_nth_error COLORS) COLORS_NoDup) in H; [lia | exact Hi].
    + intros ->. reflexivity.
Qed.

(** ** The share snippets *)

Lemma splitHead_clean s : noQuestionMark (splitHead questionMark s) = true.
Proof.
  induction s as [|c s IH]; [reflexivity|]. simpl.
  destruct (c =? questionMark) eqn:E; [reflexivity|]. simpl. rewrite E. exact IH.
Qed.

Lemma splitHead_app base rest :
  noQuestionMark base = true -> splitHead questionMark (base ++ questionMark :: rest) = base.
Proof.
  induction base as [|c base IH]; simpl; [reflexivity|].
  intros H. apply andb_true_iff in H. destruct H as [Hc Hbase].
  apply negb_true_iff in Hc. rewrite Hc, (IH Hbase). reflexivity.
Qed.

(** The link is an address without query followed by [?user=] and the
    user name as typed. *)
Lemma appUrl_shape location :
  exists base, noQuestionMark base = true /\
               forall username, appUrl location username
                                = base ++ questionMark :: lit "user=" ++ username.
Proof.
  unfold appUrl.
  destruct (negb (eqb (hostname location) (lit "localhost"))
            && negb (includes (hostname location) (lit "sandbox"))).
  - exists (splitHead questionMark (href location)). split; [apply splitHead_clean|].
    intros username. reflexivity.
  - exists (lit "https://gunjan-ghangare.github.io/GitHub-Lang-Detector/").
    split; [reflexivity|]. intros username. reflexivity.
Qed.

(** X9.  The link of the share snippets is an address free of question
    marks followed by [?user=] and the user name, unescaped; and generating
    the snippets on a page that was opened through such a link gives the
    snippets of the original page: the query of the current address is
    dropped, never accumulated. *)
Theorem share_link_is_stable (location : Location) (u u' : jsstring) :
  let shared := mkLocation (hostname location) (appUrl location u) in
  (exists base, noQuestionMark base = true /\
                appUrl location u' = base ++ lit "?user=" ++ u') /\
  appUrl shared u' = appUrl location u' /\
  generateMarkdown shared u' = generateMarkdown location u' /\
  generateHTMLEmbed shared u' = generateHTMLEmbed location u'.
Proof.
  cbv zeta.
  assert (Hsame : appUrl (mkLocation (hostname location) (appUrl location u)) u'
                  = appUrl location u').
  { destruct (appUrl_shape location) as [base [Hbase Hurl]].
    unfold appUrl at 1. cbn [hostname href]. rewrite (Hurl u), (splitHead_app _ _ Hbase).
    unfold appUrl.
    destruct (negb (eqb (hostname location) (lit "localhost"))
              && negb (includes (hostname location) (lit "sandbox"))) eqn:E;
      [|reflexivity].
    specialize (Hurl []). unfold appUrl in Hurl. rewrite E in Hurl.
    rewrite !app_nil_r in Hurl.
    change (lit "?user=") with (questionMark :: lit "user=") in Hurl.
    apply (f_equal (splitHead questionMark)) in Hurl.
    rewrite (splitHead_app _ _ Hbase), (splitHead_app _ _ (splitHead_clean _)) in Hurl.
    rewrite Hurl. reflexivity. }
  split; [|split; [exact Hsame|]].
  - destruct (appUrl_shape location) as [base [Hbase Hurl]].
    exists base. split; [exact Hbase | apply Hurl].
  - unfold generateMarkdown, generateHTMLEmbed. rewrite Hsame. split; reflexivity.
Qed.

(** ** Messages *)

Lemma digits_inj d : forall d', digits d = digits d' -> d = d'.
Proof.
  induction d as [|d IH|d IH|d IH|d IH|d IH|d IH|d IH|d IH|d IH|d IH];
    intros [|d'|d'|d'|d'|d'|d'|d'|d'|d'|d'] H; simpl in H;
    try discriminate H; try reflexivity;
    injection H as H; f_equal; apply IH, H.
Qed.

Lemma toString_inj n m : toString n = toString m -> n = m.
Proof.
  unfold toString. intros H. apply digits_inj in H.
  apply DecimalN.Unsigned.to_uint_inj, H.
Qed.

Lemma digits_no_space d : forallb (fun c => negb (c =? 32)) (digits d) = true.
Proof. induction d; simpl; try assumption; reflexivity. Qed.

Lemma split_at_space a : forall a' t t',
  forallb (fun c => negb (c =? 32)) a = true ->
  forallb (fun c => negb (c =? 32)) a' = true ->
  a ++ 32 :: t = a' ++ 32 :: t' -> a = a' /\ t = t'.
Proof.
  induction a as [|c a IH]; intros [|c' a'] t t' Ha Ha' H; simpl in *.
  - injection H as H. split; [reflexivity | exact H].
  - injection H as Hc _. subst c'. rewrite N.eqb_refl in Ha'. discriminate.
  - injection H as Hc _. subst c. rewrite N.eqb_refl in Ha. discriminate.
  - injection H as Hc H. subst c'.
    apply andb_true_iff in Ha. apply andb_true_iff in Ha'.
    destruct (IH a' t t' (proj2 Ha) (proj2 Ha') H) as [-> ->]. split; reflexivity.
Qed.

(** X10.  The message tells the failure: two failures raised by
    [fetchData] have the same message only if they are the same failure,
    with the same status code and status text when unclassified. *)
Theorem message_identifies_failure (e e' : ErrorKind) :
  message e = message e' -> e = e'.
Proof.
  intros H. pose proof (f_equal (hd 0) H) as Hhead. rewrite !message_head in Hhead.
  destruct e, e'; try discriminate Hhead; try reflexivity.
  simpl in H. injection H as H.
  apply split_at_space in H; try apply digits_no_space.
  destruct H as [Hcode ->]. apply toString_inj in Hcode. subst. reflexivity.
Qed.

(** ** The further properties at sample inputs *)

(** A name of two spaces is turned away; "octocat" is looked up. *)
Lemma validation_witness :
  fetchData sampleBroken (Some (lit "  ")) initialState =
    mkWorld (setError (Some (message ValidationError)) initialState) [] /\
  (exists rest, issued (fetchData sampleBroken (Some sampleUser) initialState) =
                GetUser sampleUser sampleHeaders :: rest).
Proof.
  split.
  - apply (proj1 (validation_rejects_blank_names sampleBroken (Some (lit "  ")) initialState)).
    reflexivity.
  - apply (proj2 (validation_rejects_blank_names sampleBroken (Some sampleUser) initialState)).
    reflexivity.
Defined.

(** The request for page 2 of a run refused there: user, page size, page
    and headers. *)
Lemma requests_witness :
  In (GetRepos sampleUser 100 2 sampleHeaders)
     (issued (fetchData sampleRateLimited (Some sampleUser) initialState)) /\
  NoDup (issued (fetchData sampleRateLimited (Some sampleUser) initialState)).
Proof.
  assert (H : In (GetRepos sampleUser 100 2 sampleHeaders)
                 (issued (fetchData sampleRateLimited (Some sampleUser) initialState))).
  { right. right. left. reflexivity. }
  split; [exact H|].
  exact (proj2 (proj2 (proj2 (proj2
    (requests_of_a_run sampleRateLimited (Some sampleUser) initialState _ H))))).
Defined.

(** After the run refused on page 2 the banner is shown, not the results. *)
Lemma banner_witness :
  loading (ui (fetchData sampleRateLimited (Some sampleUser) sampleShown)) = false /\
  errorShown (ui (fetchData sampleRateLimited (Some sampleUser) sampleShown)) =
    negb (resultsShown (ui (fetchData sampleRateLimited (Some sampleUser) sampleShown))).
Proof.
  apply (proj1 (banner_or_results sampleRateLimited (Some sampleUser) sampleShown)).
  discriminate.
Defined.

(** A list of 250 records is fetched whole, in three requests. *)
Lemma paged_list_witness :
  paginate (servePaged sampleLongList) sampleUser sampleHeaders =
    (Returned sampleLongList, map (pageRequest sampleUser sampleHeaders) [1; 2; 3]).
Proof.
  apply (paginate_paged_list (servePaged sampleLongList) sampleUser sampleHeaders
           sampleLongList).
  intros p Hp. split; reflexivity.
Defined.


(** The cards of the end-to-end example: Go on top, two languages. *)
Lemma summary_cards_witness :
  In (topLanguageCard (processedData (fst (tally sampleRecords))))
     (languagesOf sampleRecords) /\
  diversityScore (processedData (fst (tally sampleRecords))) = 2.
Proof.
  assert (Hplain : forall l, In l (languagesOf sampleRecords) -> inherited l = false).
  { intros l Hl. vm_compute in Hl. destruct Hl as [<-|[<-|[<-|[]]]]; reflexivity. }
  destruct (summary_cards sampleRecords Hplain eq_refl) as [Htop [_ [Hscore _]]].
  split; [exact Htop | rewrite Hscore; reflexivity].
Defined.

(** The rate-limit message is the message of no other failure. *)
Lemma message_witness :
  message RateLimited = message (classify 403 (lit "Forbidden")) /\
  RateLimited = classify 403 (lit "Forbidden").
Proof.
  split; [reflexivity|].
  apply (message_identifies_failure RateLimited (classify 403 (lit "Forbidden"))).
  reflexivity.
Defined.

(** On the end-to-end example both variants show the same histogram. *)
Lemma variants_witness :
  data (ui (fetchData (onePage sampleRecords) (Some sampleUser) initialState)) =
    data (ui (Basic.fetchData (onePage sampleRecords) (Some sampleUser) initialState)).
Proof.
  apply (variants_agree (onePage sampleRecords) (Some sampleUser) initialState).
  reflexivity.
Defined.

(** ** The ranking against the rest *)





